(** * QtNetworkNg stream servers: [socket_server.cpp] and [random.cpp]

    A shallow embedding of the accept/dispatch engine ([BaseStreamServer],
    [BaseSslStreamServer], [BaseRequestHandler]) and of [randomBytes],
    together with the properties the design document states about them.

    C++ exceptions, blocking calls and mutable members are made explicit:
    every member function becomes a state transformer that either returns a
    value, throws, or never comes back. *)

From Stdlib Require Import ZArith List Lia Bool.
From stdpp Require Import base option gmap strings list.

Local Open Scope Z_scope.

(** ** Control effects: return, throw, block *)

Module Exec.

(** What a [catch] clause can tell apart: the coroutine-kill signal and
    everything else. *)
Inductive Exception : Type :=
| CoroutineExitException
| OtherException (what : string).

Inductive outcome (A : Type) : Type :=
| Returns (a : A)
| Throws (e : Exception)
| Diverges.

Arguments Returns {A} a.
Arguments Throws {A} e.
Arguments Diverges {A}.

(** A member function over mutable state [S]; the state reached is kept
    on every outcome, as the writes before a [throw] stay in place. *)
Definition M (S A : Type) : Type := S -> outcome A * S.

Definition ret {S A} (a : A) : M S A := fun s => (Returns a, s).

Definition bind {S A B} (m : M S A) (k : A -> M S B) : M S B :=
  fun s =>
    match m s with
    | (Returns a, s') => k a s'
    | (Throws e, s') => (Throws e, s')
    | (Diverges, s') => (Diverges, s')
    end.

Definition throw {S A} (e : Exception) : M S A := fun s => (Throws e, s).

Definition diverge {S A} : M S A := fun s => (Diverges, s).

(** [try { m } catch (e) { h e }]: only a thrown exception reaches the
    handler. *)
Definition try_catch {S A} (m : M S A) (h : Exception -> M S A) : M S A :=
  fun s =>
    match m s with
    | (Throws e, s') => h e s'
    | r => r
    end.

Definition modify {S} (f : S -> S) : M S unit := fun s => (Returns tt, f s).

Definition gets {S A} (f : S -> A) : M S A := fun s => (Returns (f s), s).

End Exec.

Import Exec.

Declare Scope exec_scope.
Delimit Scope exec_scope with exec.
Notation "x <- m ;; k" := (bind m (fun x => k))
  (at level 100, m at next level, right associativity) : exec_scope.
Notation "m ;; k" := (bind m (fun _ => k))
  (at level 100, right associativity) : exec_scope.
Local Open Scope exec_scope.

(** ** Data model *)

(** A raw [Socket] object handed out by [accept], named by an identifier. *)
Definition Socket : Type := nat.

(** [SslConfiguration] is opaque to the server: it is stored and passed on. *)
Definition SslConfiguration : Type := string.

(** [new SslSocket(QSharedPointer<Socket>(request), d->configuration)] *)
Record SslSocket : Type := mkSslSocket {
  ssl_raw : Socket;
  ssl_configuration : SslConfiguration
}.

(** [QSharedPointer<SocketLike>], built by [SocketLike::rawSocket] or
    [SocketLike::sslSocket]; the null pointer is [None] at type
    [option SocketLike]. *)
Inductive SocketLike : Type :=
| rawSocket (s : Socket)
| sslSocket (s : SslSocket).

#[global] Instance SslSocket_eq_dec : EqDecision SslSocket.
Proof. solve_decision. Defined.

#[global] Instance SocketLike_eq_dec : EqDecision SocketLike.
Proof. solve_decision. Defined.

Inductive BindMode : Type := ReuseAddressHint | DefaultForPlatform.

Definition QHostAddress : Type := string.

(** The two closures the server hands to its coroutine group:
    [[d] { d->serveForever(); }] and [[this, request] { handleRequest(request); }]. *)
Inductive Task : Type :=
| ServeForeverTask
| HandleRequestTask (request : SocketLike).

(** Modelled from the spec: the [Event] class is declared outside
    [socket_server.cpp]; it is a binary flag with [set], [clear] and
    [isSet]. *)
Record Event : Type := mkEvent { flag : bool }.

Definition Event_set (e : Event) : Event := mkEvent true.
Definition Event_clear (e : Event) : Event := mkEvent false.
Definition Event_isSet (e : Event) : bool := flag e.

(** Modelled from the spec: the [CoroutineGroup] class is declared outside
    [socket_server.cpp]; it is a mapping from task name to task for the
    named tasks, plus the anonymous tasks in spawn order. [spawnWithName]
    does nothing when the name is already registered. *)
Record CoroutineGroup : Type := mkCoroutineGroup {
  named : gmap string Task;
  anonymous : list Task
}.

Definition CoroutineGroup_empty : CoroutineGroup := mkCoroutineGroup ∅ [].

Definition CoroutineGroup_has (name : string) (g : CoroutineGroup) : bool :=
  bool_decide (is_Some (named g !! name)).

Definition CoroutineGroup_spawn (t : Task) (g : CoroutineGroup) : CoroutineGroup :=
  mkCoroutineGroup (named g) (anonymous g ++ [t]).

Definition CoroutineGroup_spawnWithName (name : string) (t : Task)
    (g : CoroutineGroup) : CoroutineGroup :=
  if CoroutineGroup_has name g then g
  else mkCoroutineGroup (<[name := t]> (named g)) (anonymous g).

(** [class BaseStreamServerPrivate]; [serverSocket] is an object of the
    outside world, and [configuration] is the member the SSL subclass adds. *)
Record BaseStreamServerPrivate : Type := mkPrivate {
  serverAddress : QHostAddress;
  operations : CoroutineGroup;
  requestQueueSize : Z;
  serverPort : Z;
  allowReuseAddress : bool;
  configuration : SslConfiguration
}.

Definition set_operations (g : CoroutineGroup) (d : BaseStreamServerPrivate)
    : BaseStreamServerPrivate :=
  mkPrivate (serverAddress d) g (requestQueueSize d) (serverPort d)
            (allowReuseAddress d) (configuration d).

(** Every call the core makes on an event, on the listening socket, on the
    coroutine group or on a virtual member, in program order. The record of
    calls is kept beside the program state; the program cannot read or
    write it. *)
Inductive Call : Type :=
| Call_started_set
| Call_started_clear
| Call_stopped_set
| Call_stopped_clear
| Call_serverBind
| Call_serverActivate
| Call_serverClose
| Call_getRequest
| Call_verifyRequest (request : SocketLike)
| Call_serviceActions
| Call_spawn (request : SocketLike)
| Call_spawnWithName (name : string)
| Call_processRequest (request : SocketLike)
| Call_handleError (request : SocketLike)
| Call_shutdownRequest (request : SocketLike)
| Call_closeRequest (request : SocketLike)
| Call_setup (request : SocketLike)
| Call_handle (request : SocketLike)
| Call_finish (request : SocketLike).

#[global] Instance Call_eq_dec : EqDecision Call.
Proof. solve_decision. Defined.

(** How often [c] occurs in a record of calls. *)
Definition occurrences (c : Call) (l : list Call) : nat :=
  length (filter (fun c' => c' = c) l).

(** Control leaving one pass of a [while (true)] body. *)
Inductive LoopCtl : Type := Break | Continue.

(** ** The server core *)

Set Implicit Arguments.
Set Maximal Implicit Insertion.

Section StreamServer.

(** The world outside the server object: the listening socket
    [d->serverSocket], the accepted connections, the TLS layer, and
    whatever the application keeps. Its operations are the collaborators
    of [socket_server.cpp]. [accept] and [handshake] are suspension
    points: they may return, be interrupted by an exception, or block
    for good. *)
Variable U : Type.
Variable Socket_bind : QHostAddress -> Z -> BindMode -> U -> bool * U.
Variable Socket_listen : Z -> U -> bool * U.
Variable Socket_accept : M U (option Socket).
Variable Socket_close : U -> U.
Variable SocketLike_close : SocketLike -> U -> U.
Variable SslSocket_handshake : SslSocket -> bool -> M U bool.

(** [class BaseStreamServer]: the two public events, the private part,
    and the world its members act on. *)
Record BaseStreamServer : Type := mkServer {
  started : Event;
  stopped : Event;
  d_ptr : BaseStreamServerPrivate;
  env : U
}.

Definition set_started (e : Event) (s : BaseStreamServer) : BaseStreamServer :=
  mkServer e (stopped s) (d_ptr s) (env s).
Definition set_stopped (e : Event) (s : BaseStreamServer) : BaseStreamServer :=
  mkServer (started s) e (d_ptr s) (env s).
Definition set_d_ptr (d : BaseStreamServerPrivate) (s : BaseStreamServer)
    : BaseStreamServer :=
  mkServer (started s) (stopped s) d (env s).
Definition set_env (u : U) (s : BaseStreamServer) : BaseStreamServer :=
  mkServer (started s) (stopped s) (d_ptr s) u.

(** [BaseStreamServer::BaseStreamServer]: [started->clear(); stopped->set();] *)
Definition BaseStreamServer_new (serverAddress : QHostAddress) (serverPort : Z)
    (configuration : SslConfiguration) (u : U) : BaseStreamServer :=
  mkServer
    (Event_clear (mkEvent false))
    (Event_set (mkEvent false))
    (mkPrivate serverAddress CoroutineGroup_empty 100 serverPort true configuration)
    u.

(** The body of a virtual member: code that runs on the server object
    and the world. *)
Definition Virtual (A : Type) : Type := M BaseStreamServer A.

(** An operation of the outside world, run from a member function. *)
Definition on_env {A} (f : M U A) : Virtual A :=
  fun s => let (r, u) := f (env s) in (r, set_env u s).

(** The virtual members of [BaseStreamServer] that the accept loop and
    [handleRequest] dispatch through [q]. *)
Record BaseStreamServer_vtable : Type := mkVtable {
  getRequest : Virtual (option SocketLike);
  verifyRequest : SocketLike -> Virtual bool;
  processRequest : SocketLike -> Virtual unit;
  handleError : SocketLike -> Virtual unit;
  shutdownRequest : SocketLike -> Virtual unit;
  closeRequest : SocketLike -> Virtual unit;
  serviceActions : Virtual bool
}.

(** *** The members as [BaseStreamServer] defines them *)

Definition BaseStreamServer_serviceActions : Virtual bool := ret true.

Definition BaseStreamServer_verifyRequest (_ : SocketLike) : Virtual bool :=
  ret true.

Definition BaseStreamServer_processRequest (_ : SocketLike) : Virtual unit :=
  ret tt.

Definition BaseStreamServer_getRequest : Virtual (option SocketLike) :=
  request <- on_env Socket_accept ;;
  match request with
  | Some request => ret (Some (rawSocket request))
  | None => ret None
  end.

Definition BaseStreamServer_handleError (_ : SocketLike) : Virtual unit :=
  ret tt.

Definition BaseStreamServer_shutdownRequest (_ : SocketLike) : Virtual unit :=
  ret tt.

Definition BaseStreamServer_closeRequest (request : SocketLike) : Virtual unit :=
  on_env (modify (SocketLike_close request)).

Definition BaseStreamServer_vtbl : BaseStreamServer_vtable :=
  mkVtable
    BaseStreamServer_getRequest
    BaseStreamServer_verifyRequest
    BaseStreamServer_processRequest
    BaseStreamServer_handleError
    BaseStreamServer_shutdownRequest
    BaseStreamServer_closeRequest
    BaseStreamServer_serviceActions.

(** *** [BaseSslStreamServer::getRequest]

    The [while (true)] runs on [fuel]: one unit per raw connection
    accepted. *)
Fixpoint BaseSslStreamServer_getRequest (fuel : nat) : Virtual (option SocketLike) :=
  match fuel with
  | O => diverge
  | S fuel =>
      request <- on_env Socket_accept ;;
      match request with
      | Some request =>
          configuration <- gets (fun s => configuration (d_ptr s)) ;;
          let sslSocket_ := mkSslSocket request configuration in
          ok <- on_env (SslSocket_handshake sslSocket_ true) ;;
          if negb ok then
            BaseSslStreamServer_getRequest fuel
          else
            ret (Some (sslSocket sslSocket_))
      | None => ret None
      end
  end.

Definition BaseSslStreamServer_vtbl (fuel : nat) : BaseStreamServer_vtable :=
  mkVtable
    (BaseSslStreamServer_getRequest fuel)
    BaseStreamServer_verifyRequest
    BaseStreamServer_processRequest
    BaseStreamServer_handleError
    BaseStreamServer_shutdownRequest
    BaseStreamServer_closeRequest
    BaseStreamServer_serviceActions.

(** *** The machine: the server and the record of calls *)

Record Machine : Type := mkMachine {
  server : BaseStreamServer;
  calls : list Call
}.

Definition Core (A : Type) : Type := M Machine A.

(** A call the core makes: it is recorded, then its body runs on the
    server. *)
Definition call {A} (c : Call) (body : Virtual A) : Core A :=
  fun m =>
    let (r, s) := body (server m) in
    (r, mkMachine s (calls m ++ [c])).

(** A read of the server's members; nothing is recorded. *)
Definition read {A} (f : BaseStreamServer -> A) : Core A :=
  fun m => (Returns (f (server m)), m).

Definition started_set : Core unit :=
  call Call_started_set (modify (fun s => set_started (Event_set (started s)) s)).
Definition started_clear : Core unit :=
  call Call_started_clear (modify (fun s => set_started (Event_clear (started s)) s)).
Definition stopped_set : Core unit :=
  call Call_stopped_set (modify (fun s => set_stopped (Event_set (stopped s)) s)).
Definition stopped_clear : Core unit :=
  call Call_stopped_clear (modify (fun s => set_stopped (Event_clear (stopped s)) s)).

Definition with_operations (f : CoroutineGroup -> CoroutineGroup)
    (s : BaseStreamServer) : BaseStreamServer :=
  set_d_ptr (set_operations (f (operations (d_ptr s))) (d_ptr s)) s.

(** [operations->spawn([this, request] { handleRequest(request); })] *)
Definition operations_spawn (request : SocketLike) : Core unit :=
  call (Call_spawn request)
       (modify (with_operations (CoroutineGroup_spawn (HandleRequestTask request)))).

(** [d->operations->spawnWithName(name, [d] { d->serveForever(); })] *)
Definition operations_spawnWithName (name : string) : Core unit :=
  call (Call_spawnWithName name)
       (modify (with_operations (CoroutineGroup_spawnWithName name ServeForeverTask))).

Definition BaseStreamServer_serverBind : Virtual bool :=
  fun s =>
    let d := d_ptr s in
    let mode := if allowReuseAddress d then ReuseAddressHint else DefaultForPlatform in
    let (ok, u) := Socket_bind (serverAddress d) (serverPort d) mode (env s) in
    (Returns ok, set_env u s).

Definition BaseStreamServer_serverActivate : Virtual bool :=
  fun s =>
    let d := d_ptr s in
    let (ok, u) := Socket_listen (requestQueueSize d) (env s) in
    (Returns ok, set_env u s).

Definition BaseStreamServer_serverClose : Virtual unit :=
  on_env (modify Socket_close).

Definition serverBind : Core bool := call Call_serverBind BaseStreamServer_serverBind.
Definition serverActivate : Core bool :=
  call Call_serverActivate BaseStreamServer_serverActivate.
Definition serverClose : Core unit := call Call_serverClose BaseStreamServer_serverClose.

(** *** Code that dispatches through [q] *)

Section Dispatch.

(** [Q_Q(BaseStreamServer)]: the object whose overrides are called. *)
Variable q : BaseStreamServer_vtable.

Definition q_getRequest : Core (option SocketLike) :=
  call Call_getRequest (getRequest q).
Definition q_verifyRequest (request : SocketLike) : Core bool :=
  call (Call_verifyRequest request) (verifyRequest q request).
Definition q_processRequest (request : SocketLike) : Core unit :=
  call (Call_processRequest request) (processRequest q request).
Definition q_handleError (request : SocketLike) : Core unit :=
  call (Call_handleError request) (handleError q request).
Definition q_shutdownRequest (request : SocketLike) : Core unit :=
  call (Call_shutdownRequest request) (shutdownRequest q request).
Definition q_closeRequest (request : SocketLike) : Core unit :=
  call (Call_closeRequest request) (closeRequest q request).
Definition q_serviceActions : Core bool :=
  call Call_serviceActions (serviceActions q).

(** [BaseStreamServerPrivate::handleRequest] *)
Definition handleRequest (request : SocketLike) : Core unit :=
  try_catch
    (q_processRequest request)
    (fun e =>
       match e with
       | CoroutineExitException =>
           q_shutdownRequest request ;;
           q_closeRequest request
       | OtherException _ =>
           q_handleError request ;;
           q_shutdownRequest request ;;
           q_closeRequest request
       end).

(** One pass of the [while (true)] body of
    [BaseStreamServerPrivate::serveForever]. *)
Definition serveForever_body : Core LoopCtl :=
  request <- q_getRequest ;;
  match request with
  | None => ret Break
  | Some request =>
      ok <- q_verifyRequest request ;;
      (if ok then
         operations_spawn request
       else
         (q_shutdownRequest request ;;
          q_closeRequest request)) ;;
      go_on <- q_serviceActions ;;
      if negb go_on then ret Break else ret Continue
  end.

Fixpoint serveForever_loop (fuel : nat) : Core unit :=
  match fuel with
  | O => diverge
  | S fuel =>
      ctl <- serveForever_body ;;
      match ctl with
      | Break => ret tt
      | Continue => serveForever_loop fuel
      end
  end.

(** [BaseStreamServerPrivate::serveForever] *)
Definition d_serveForever (fuel : nat) : Core unit :=
  started_set ;;
  stopped_clear ;;
  serveForever_loop fuel ;;
  serverClose ;;
  started_clear ;;
  stopped_set.

(** [BaseStreamServer::serveForever] *)
Definition serveForever (fuel : nat) : Core bool :=
  ok <- serverBind ;;
  if negb ok then
    serverClose ;;
    ret false
  else
    ok <- serverActivate ;;
    if negb ok then
      serverClose ;;
      ret false
    else
      d_serveForever fuel ;;
      ret true.

(** [BaseStreamServer::start] *)
Definition start : Core bool :=
  isSet <- read (fun s => Event_isSet (started s)) ;;
  has <- read (fun s => CoroutineGroup_has "serve" (operations (d_ptr s))) ;;
  if isSet || has then
    ret true
  else
    ok <- serverBind ;;
    if negb ok then
      serverClose ;;
      ret false
    else
      ok <- serverActivate ;;
      if negb ok then
        serverClose ;;
        ret false
      else
        operations_spawnWithName "serve" ;;
        ret true.

(** [BaseStreamServer::stop] *)
Definition stop : Core unit := serverClose.

(** What a coroutine of the group runs when it is scheduled. *)
Definition run_task (fuel : nat) (t : Task) : Core unit :=
  match t with
  | ServeForeverTask => d_serveForever fuel
  | HandleRequestTask request => handleRequest request
  end.

End Dispatch.

(** *** [BaseRequestHandler] *)

Record BaseRequestHandler_vtable : Type := mkHandlerVtable {
  setup : SocketLike -> Virtual unit;
  handle : SocketLike -> Virtual unit;
  finish : SocketLike -> Virtual unit
}.

Definition BaseRequestHandler_setup (_ : SocketLike) : Virtual unit := ret tt.
Definition BaseRequestHandler_handle (_ : SocketLike) : Virtual unit := ret tt.
Definition BaseRequestHandler_finish (request : SocketLike) : Virtual unit :=
  on_env (modify (SocketLike_close request)).

Definition BaseRequestHandler_vtbl : BaseRequestHandler_vtable :=
  mkHandlerVtable BaseRequestHandler_setup BaseRequestHandler_handle
                  BaseRequestHandler_finish.

(** [BaseRequestHandler::run], on a handler built for [request]. *)
Definition BaseRequestHandler_run (h : BaseRequestHandler_vtable)
    (request : SocketLike) : Core unit :=
  call (Call_setup request) (setup h request) ;;
  try_catch
    (call (Call_handle request) (handle h request) ;;
     call (Call_finish request) (finish h request))
    (fun _ => call (Call_finish request) (finish h request)).

End StreamServer.

Unset Maximal Implicit Insertion.
Unset Implicit Arguments.

(** The calls made between two machine states of one run. *)
Definition new_calls {U} (before after : Machine U) : list Call :=
  drop (length (calls before)) (calls after).

(** ** [random.cpp] *)

Module Random.

Section RandomBytes.

(** The state of the OpenSSL generator. *)
Variable G : Type.
Variable initOpenSSL : G -> G.

(** [RAND_bytes(buf, num)]: the status it returns (1 on success) and
    the bytes it put at the start of [buf]. *)
Variable RAND_bytes : Z -> G -> (Z * list Byte.byte) * G.

(** What freshly grown storage holds at each index: [resize] does not
    initialise it. *)
Variable stale : nat -> Byte.byte.

(** [QByteArray::resize]: a negative size counts as zero; bytes kept
    up to the new size, new storage left as it is. *)
Definition QByteArray_resize (b : list Byte.byte) (size : Z) : list Byte.byte :=
  let n := Z.to_nat (Z.max size 0) in
  take n b ++ map stale (seq (length b) (n - length b)).

(** Writing through [b.data()]: the bytes land on the front of the
    buffer and never past its end. *)
Definition store (bytes b : list Byte.byte) : list Byte.byte :=
  take (length b) bytes ++ drop (length bytes) b.

Definition randomBytes (i : Z) (g : G) : list Byte.byte * G :=
  let g := initOpenSSL g in
  let b := [] in
  let b := QByteArray_resize b i in
  let '((_, bytes), g) := RAND_bytes i g in
  (store bytes b, g).

End RandomBytes.

End Random.

(** ** A scripted world

    A stand-in for the collaborators, driven by data: whether [bind] and
    [listen] succeed, what the successive [accept] calls give ([None] is
    a null pointer, and so is every call past the end of the script), and
    which raw sockets complete the TLS handshake. It records the
    connections closed and how often the listening socket was closed. *)

Module Script.

Record World : Type := mkWorld {
  bind_ok : bool;
  listen_ok : bool;
  incoming : list (option Socket);
  tls_ok : Socket -> bool;
  closed : list SocketLike;
  listener_closed : nat
}.

Definition Socket_bind (_ : QHostAddress) (_ : Z) (_ : BindMode) (w : World)
    : bool * World :=
  (bind_ok w, w).

Definition Socket_listen (_ : Z) (w : World) : bool * World :=
  (listen_ok w, w).

Definition set_incoming (l : list (option Socket)) (w : World) : World :=
  mkWorld (bind_ok w) (listen_ok w) l (tls_ok w) (closed w) (listener_closed w).

Definition Socket_accept : M World (option Socket) :=
  fun w =>
    match incoming w with
    | [] => (Returns None, w)
    | r :: rest => (Returns r, set_incoming rest w)
    end.

Definition Socket_close (w : World) : World :=
  mkWorld (bind_ok w) (listen_ok w) (incoming w) (tls_ok w) (closed w)
          (S (listener_closed w)).

Definition SocketLike_close (request : SocketLike) (w : World) : World :=
  mkWorld (bind_ok w) (listen_ok w) (incoming w) (tls_ok w)
          (closed w ++ [request]) (listener_closed w).

Definition SslSocket_handshake (s : SslSocket) (asServer : bool) : M World bool :=
  fun w => (Returns (tls_ok w (ssl_raw s)), w).

(** The base server on this world. *)
Definition base : BaseStreamServer_vtable World :=
  BaseStreamServer_vtbl Socket_accept SocketLike_close.

(** The SSL server on this world. *)
Definition ssl (fuel : nat) : BaseStreamServer_vtable World :=
  BaseSslStreamServer_vtbl Socket_accept SocketLike_close SslSocket_handshake fuel.

(** A subclass that overrides [processRequest] with a body ending as
    [how] says, [verifyRequest] with the admission test [wanted] and
    [serviceActions] with the constant [go_on]. *)
Definition subclass (how : SocketLike -> outcome unit) (wanted : SocketLike -> bool)
    (go_on : bool) : BaseStreamServer_vtable World :=
  mkVtable
    (getRequest base)
    (fun request => ret (wanted request))
    (fun request s => (how request, s))
    (handleError base)
    (shutdownRequest base)
    (closeRequest base)
    (ret go_on).

(** A request handler whose [handle] ends as [how] says. *)
Definition handler (how : outcome unit) : BaseRequestHandler_vtable World :=
  mkHandlerVtable
    (setup (BaseRequestHandler_vtbl SocketLike_close))
    (fun _ s => (how, s))
    (finish (BaseRequestHandler_vtbl SocketLike_close)).

Definition world0 (script : list (option Socket)) (tls : Socket -> bool) : World :=
  mkWorld true true script tls [] 0.

(** A freshly constructed server on port 8080 facing [w]. *)
Definition fresh (w : World) : Machine World :=
  mkMachine (BaseStreamServer_new "127.0.0.1" 8080 "SslServer" w) [].

(** A server whose [processRequest] is interrupted by the kill signal. *)
Definition killed : BaseStreamServer_vtable World :=
  subclass (fun _ => Throws CoroutineExitException) (fun _ => true) true.

(** A server whose [processRequest] throws an ordinary exception. *)
Definition failing : BaseStreamServer_vtable World :=
  subclass (fun _ => Throws (OtherException "boom")) (fun _ => true) true.

(** A server that admits nobody. *)
Definition rejecting : BaseStreamServer_vtable World :=
  subclass (fun _ => Returns tt) (fun _ => false) true.

(** A fresh server with nothing to accept. *)
Definition quiet : Machine World := fresh (world0 [] (fun _ => true)).

(** A fresh server whose port is taken: [bind] fails. *)
Definition unbindable : Machine World :=
  fresh (mkWorld false true [] (fun _ => true) [] 0).

(** A fresh server that binds but cannot listen. *)
Definition unlistenable : Machine World :=
  fresh (mkWorld true false [] (fun _ => true) [] 0).

(** A fresh server with one connection waiting. *)
Definition one_waiting : Machine World := fresh (world0 [Some 1%nat] (fun _ => true)).

(** A fresh SSL server with three raw connections waiting, of which only
    the third completes its handshake. *)
Definition three_waiting : Machine World :=
  fresh (world0 [Some 1%nat; Some 2%nat; Some 3%nat] (Nat.eqb 3)).

(** A fresh server with two connections waiting. *)
Definition two_waiting : Machine World :=
  fresh (world0 [Some 1%nat; Some 2%nat] (fun _ => true)).

(** A server that admits nobody and whose [serviceActions] says stop. *)
Definition rejecting_and_stopping : BaseStreamServer_vtable World :=
  subclass (fun _ => Returns tt) (fun _ => false) false.

(** The connection wrapped around raw socket 1. *)
Definition conn1 : SocketLike := rawSocket 1%nat.

(** What a run leaves behind, for reading off results. *)
Definition closed_after {A} (r : outcome A * Machine World) : list SocketLike :=
  closed (env (server (snd r))).

Definition waiting_after {A} (r : outcome A * Machine World)
    : list (option Socket) :=
  incoming (env (server (snd r))).

Definition spawned_after {A} (r : outcome A * Machine World) : list Task :=
  anonymous (operations (d_ptr (server (snd r)))).

(** The base server facing a listening socket whose blocked [accept]
    is interrupted by the kill signal. *)
Definition interrupted : BaseStreamServer_vtable World :=
  BaseStreamServer_vtbl (throw CoroutineExitException) SocketLike_close.

(** A generator that fails: status 0, nothing written. *)
Definition RAND_bytes_failing (_ : Z) (g : unit) : (Z * list Byte.byte) * unit :=
  ((0, []), g).

End Script.

(** ** Accessors and setters *)

Section Accessors.

Context {U : Type}.

(** [BaseStreamServer::allowReuseAddress] *)
Definition BaseStreamServer_allowReuseAddress (s : BaseStreamServer U) : bool :=
  allowReuseAddress (d_ptr s).

(** [BaseStreamServer::setAllowReuseAddress] *)
Definition setAllowReuseAddress (b : bool) (s : BaseStreamServer U)
    : BaseStreamServer U :=
  let d := d_ptr s in
  set_d_ptr
    (mkPrivate (serverAddress d) (operations d) (requestQueueSize d) (serverPort d)
               b (configuration d))
    s.

(** [BaseStreamServer::requestQueueSize] *)
Definition BaseStreamServer_requestQueueSize (s : BaseStreamServer U) : Z :=
  requestQueueSize (d_ptr s).

(** [BaseStreamServer::setRequestQueueSize] *)
Definition setRequestQueueSize (n : Z) (s : BaseStreamServer U) : BaseStreamServer U :=
  let d := d_ptr s in
  set_d_ptr
    (mkPrivate (serverAddress d) (operations d) n (serverPort d)
               (allowReuseAddress d) (configuration d))
    s.

(** [BaseStreamServer::serverPort] *)
Definition BaseStreamServer_serverPort (s : BaseStreamServer U) : Z :=
  serverPort (d_ptr s).

(** [BaseStreamServer::serverAddress] *)
Definition BaseStreamServer_serverAddress (s : BaseStreamServer U) : QHostAddress :=
  serverAddress (d_ptr s).

(** [BaseSslStreamServer::setSslConfiguration] *)
Definition setSslConfiguration (c : SslConfiguration) (s : BaseStreamServer U)
    : BaseStreamServer U :=
  let d := d_ptr s in
  set_d_ptr
    (mkPrivate (serverAddress d) (operations d) (requestQueueSize d) (serverPort d)
               (allowReuseAddress d) c)
    s.

(** [BaseSslStreamServer::sslConfiguratino] (the name is the source's) *)
Definition sslConfiguratino (s : BaseStreamServer U) : SslConfiguration :=
  configuration (d_ptr s).

End Accessors.

(** ** A world that records what the listening socket is asked

    [bind] and [listen] always succeed here; each keeps the arguments it
    was called with. *)

Module Recorder.

Record World : Type := mkWorld {
  binds : list (QHostAddress * Z * BindMode);
  listens : list Z;
  closes : nat
}.

Definition Socket_bind (a : QHostAddress) (p : Z) (mode : BindMode) (w : World)
    : bool * World :=
  (true, mkWorld (binds w ++ [(a, p, mode)]) (listens w) (closes w)).

Definition Socket_listen (backlog : Z) (w : World) : bool * World :=
  (true, mkWorld (binds w) (listens w ++ [backlog]) (closes w)).

Definition Socket_close (w : World) : World :=
  mkWorld (binds w) (listens w) (S (closes w)).

Definition untouched : World := mkWorld [] [] 0.

End Recorder.

(** ** Members that end as they are told

    Subclasses for exercising the failure paths: every member leaves the
    server alone and ends with the given outcome. *)

Module Faults.

Section Faults.

Context {U : Type}.

Definition server
    (get : outcome (option SocketLike)) (verify : outcome bool)
    (process error shutdown close : outcome unit) (service : outcome bool)
    : BaseStreamServer_vtable U :=
  mkVtable
    (fun s => (get, s))
    (fun _ s => (verify, s))
    (fun _ s => (process, s))
    (fun _ s => (error, s))
    (fun _ s => (shutdown, s))
    (fun _ s => (close, s))
    (fun s => (service, s)).

Definition handler (setup_ handle_ finish_ : outcome unit)
    : BaseRequestHandler_vtable U :=
  mkHandlerVtable
    (fun _ s => (setup_, s))
    (fun _ s => (handle_, s))
    (fun _ s => (finish_, s)).

End Faults.

End Faults.

(** The calls [f] makes all satisfy [P], however it ends. *)
Definition makes_only {U A} (P : Call -> Prop) (f : M (Machine U) A) : Prop :=
  forall m, exists l, calls (snd (f m)) = calls m ++ l /\ Forall P l.

(** The calls the accept loop and its prologue and epilogue can make. *)
Definition loop_call (c : Call) : Prop :=
  match c with
  | Call_started_set | Call_started_clear | Call_stopped_set | Call_stopped_clear
  | Call_serverClose | Call_getRequest | Call_verifyRequest _ | Call_serviceActions
  | Call_spawn _ | Call_shutdownRequest _ | Call_closeRequest _ => True
  | _ => False
  end.

(** The calls one pass of the loop body can make. *)
Definition pass_call (c : Call) : Prop :=
  match c with
  | Call_getRequest | Call_verifyRequest _ | Call_serviceActions
  | Call_spawn _ | Call_shutdownRequest _ | Call_closeRequest _ => True
  | _ => False
  end.

(** The calls a connection task can make on [request]. *)
Definition task_call (request : SocketLike) (c : Call) : Prop :=
  c = Call_processRequest request \/ c = Call_handleError request
  \/ c = Call_shutdownRequest request \/ c = Call_closeRequest request.

(** The clean-up members [handleError], [shutdownRequest] and
    [closeRequest] of [q] return normally on every connection, as those of
    [BaseStreamServer] do. *)
Definition cleanup_returns {U} (q : BaseStreamServer_vtable U) : Prop :=
  forall (request : SocketLike) (s : BaseStreamServer U),
    (exists s', handleError q request s = (Returns tt, s')) /\
    (exists s', shutdownRequest q request s = (Returns tt, s')) /\
    (exists s', closeRequest q request s = (Returns tt, s')).

(** Whatever [f] does, it only adds to the record of calls. *)
Definition extends {U A} (f : M (Machine U) A) : Prop :=
  forall m, exists l, calls (snd (f m)) = calls m ++ l.

(** * Properties *)

(** ** Sequencing and [try]/[catch] *)

Lemma bind_returns {S A B} (m : M S A) (k : A -> M S B) s a s' :
  m s = (Returns a, s') -> bind m k s = k a s'.
Proof. intros H. unfold bind. now rewrite H. Qed.

Lemma bind_throws {S A B} (m : M S A) (k : A -> M S B) s e s' :
  m s = (Throws e, s') -> bind m k s = (Throws e, s').
Proof. intros H. unfold bind. now rewrite H. Qed.

Lemma bind_diverges {S A B} (m : M S A) (k : A -> M S B) s s' :
  m s = (Diverges, s') -> bind m k s = (Diverges, s').
Proof. intros H. unfold bind. now rewrite H. Qed.

Lemma try_catch_returns {S A} (m : M S A) h s a s' :
  m s = (Returns a, s') -> try_catch m h s = (Returns a, s').
Proof. intros H. unfold try_catch. now rewrite H. Qed.

Lemma try_catch_throws {S A} (m : M S A) h s e s' :
  m s = (Throws e, s') -> try_catch m h s = h e s'.
Proof. intros H. unfold try_catch. now rewrite H. Qed.

Lemma try_catch_diverges {S A} (m : M S A) h s s' :
  m s = (Diverges, s') -> try_catch m h s = (Diverges, s').
Proof. intros H. unfold try_catch. now rewrite H. Qed.


Lemma call_eq {U A} (c : Call) (body : M (BaseStreamServer U) A) (m : Machine U) r s :
  body (server m) = (r, s) ->
  call c body m = (r, mkMachine s (calls m ++ [c])).
Proof. intros H. unfold call. now rewrite H. Qed.

Lemma call_calls {U A} (c : Call) (body : M (BaseStreamServer U) A) (m : Machine U) :
  calls (snd (call c body m)) = calls m ++ [c].
Proof. unfold call. now destruct (body (server m)). Qed.

Lemma new_calls_app {U} (m : Machine U) (s : BaseStreamServer U) (l : list Call) :
  new_calls m (mkMachine s (calls m ++ l)) = l.
Proof. unfold new_calls. simpl. now rewrite drop_app_length. Qed.

Lemma try_catch_bind_returns {S A B} (m : M S A) (k : A -> M S B) h s a s' :
  m s = (Returns a, s') -> try_catch (bind m k) h s = try_catch (k a) h s'.
Proof. intros H. unfold try_catch, bind. now rewrite H. Qed.

Lemma try_catch_bind_throws {S A B} (m : M S A) (k : A -> M S B) h s e s' :
  m s = (Throws e, s') -> try_catch (bind m k) h s = h e s'.
Proof. intros H. unfold try_catch, bind. now rewrite H. Qed.

Lemma try_catch_bind_diverges {S A B} (m : M S A) (k : A -> M S B) h s s' :
  m s = (Diverges, s') -> try_catch (bind m k) h s = (Diverges, s').
Proof. intros H. unfold try_catch, bind. now rewrite H. Qed.

(** Rewriting a run one call at a time, from a hypothesis [H] that says
    how the body of the next call ends. *)
Ltac step_with E :=
  first
    [ rewrite (bind_returns _ _ _ _ _ E)
    | rewrite (bind_throws _ _ _ _ _ E)
    | rewrite (bind_diverges _ _ _ _ E)
    | rewrite (try_catch_bind_returns _ _ _ _ _ _ E)
    | rewrite (try_catch_bind_throws _ _ _ _ _ _ E)
    | rewrite (try_catch_bind_diverges _ _ _ _ _ E)
    | rewrite (try_catch_returns _ _ _ _ _ E)
    | rewrite (try_catch_throws _ _ _ _ _ E)
    | rewrite (try_catch_diverges _ _ _ _ E)
    | rewrite E ].

Ltac step_call H :=
  let E := fresh "E" in
  let where_ := lazymatch goal with |- ?lhs = _ => lhs | |- ?g => g end in
  lazymatch where_ with
  | context [try_catch (bind (call ?c ?body) _) _ ?m] =>
      pose proof (call_eq c body m _ _ H) as E
  | context [bind (call ?c ?body) _ ?m] => pose proof (call_eq c body m _ _ H) as E
  | context [try_catch (call ?c ?body) _ ?m] => pose proof (call_eq c body m _ _ H) as E
  | context [call ?c ?body ?m] => pose proof (call_eq c body m _ _ H) as E
  end;
  step_with E; clear E; cbn [server calls].

(** ** [handleRequest] *)

Section HandleRequest.

Context {U : Type}.
Variable q : BaseStreamServer_vtable U.
Variable request : SocketLike.

(** When [processRequest] returns, nothing else is called. *)
Lemma handleRequest_returns (m : Machine U) s1 :
  processRequest q request (server m) = (Returns tt, s1) ->
  handleRequest q request m
  = (Returns tt, mkMachine s1 (calls m ++ [Call_processRequest request])).
Proof.
  intros Hp. unfold handleRequest, q_processRequest.
  now step_call Hp.
Qed.

(** When [processRequest] never comes back, neither does the task. *)
Lemma handleRequest_diverges (m : Machine U) s1 :
  processRequest q request (server m) = (Diverges, s1) ->
  handleRequest q request m
  = (Diverges, mkMachine s1 (calls m ++ [Call_processRequest request])).
Proof.
  intros Hp. unfold handleRequest, q_processRequest.
  now step_call Hp.
Qed.

(** The first [catch] clause. *)
Lemma handleRequest_catch_exit (m : Machine U) s1 :
  processRequest q request (server m) = (Throws CoroutineExitException, s1) ->
  handleRequest q request m
  = (q_shutdownRequest q request ;; q_closeRequest q request)
      (mkMachine s1 (calls m ++ [Call_processRequest request])).
Proof.
  intros Hp. unfold handleRequest, q_processRequest.
  now step_call Hp.
Qed.

(** The second [catch] clause. *)
Lemma handleRequest_catch_all (m : Machine U) what s1 :
  processRequest q request (server m) = (Throws (OtherException what), s1) ->
  handleRequest q request m
  = (q_handleError q request ;; q_shutdownRequest q request ;; q_closeRequest q request)
      (mkMachine s1 (calls m ++ [Call_processRequest request])).
Proof.
  intros Hp. unfold handleRequest, q_processRequest.
  now step_call Hp.
Qed.

(** Shutdown then close, both returning. *)
Lemma shutdown_close_returns (m : Machine U) s1 s2 :
  shutdownRequest q request (server m) = (Returns tt, s1) ->
  closeRequest q request s1 = (Returns tt, s2) ->
  (q_shutdownRequest q request ;; q_closeRequest q request) m
  = (Returns tt,
     mkMachine s2 (calls m ++ [Call_shutdownRequest request; Call_closeRequest request])).
Proof.
  intros Hs Hc. unfold q_shutdownRequest, q_closeRequest.
  step_call Hs. step_call Hc. now rewrite <- app_assoc.
Qed.

(** The first [catch] clause, with clean-up members that return. *)
Lemma handleRequest_catch_exit_returns (m : Machine U) s1 s2 s3 :
  processRequest q request (server m) = (Throws CoroutineExitException, s1) ->
  shutdownRequest q request s1 = (Returns tt, s2) ->
  closeRequest q request s2 = (Returns tt, s3) ->
  handleRequest q request m
  = (Returns tt,
     mkMachine s3 (calls m ++ [Call_processRequest request;
                               Call_shutdownRequest request;
                               Call_closeRequest request])).
Proof.
intros Hp Hs Hc.
rewrite (handleRequest_catch_exit _ _ Hp).
erewrite shutdown_close_returns by eassumption.
cbn [calls]. now rewrite <- app_assoc.
Qed.

(** The second [catch] clause, with clean-up members that return. *)
Lemma handleRequest_catch_all_returns (m : Machine U) what s1 s2 s3 s4 :
  processRequest q request (server m) = (Throws (OtherException what), s1) ->
  handleError q request s1 = (Returns tt, s2) ->
  shutdownRequest q request s2 = (Returns tt, s3) ->
  closeRequest q request s3 = (Returns tt, s4) ->
  handleRequest q request m
  = (Returns tt,
     mkMachine s4 (calls m ++ [Call_processRequest request;
                               Call_handleError request;
                               Call_shutdownRequest request;
                               Call_closeRequest request])).
Proof.
intros Hp He Hs Hc.
rewrite (handleRequest_catch_all _ _ _ Hp).
unfold q_handleError. step_call He.
erewrite shutdown_close_returns by eassumption.
cbn [calls]. now rewrite <- !app_assoc.
Qed.

End HandleRequest.

(** ** Counting calls *)

Lemma occurrences_nil (c : Call) : occurrences c [] = 0%nat.
Proof. reflexivity. Qed.

Lemma occurrences_cons_eq (c : Call) (l : list Call) :
  occurrences c (c :: l) = S (occurrences c l).
Proof. unfold occurrences. now rewrite filter_cons_True. Qed.

Lemma occurrences_cons_ne (c c' : Call) (l : list Call) :
  c' <> c -> occurrences c (c' :: l) = occurrences c l.
Proof. intros H. unfold occurrences. now rewrite filter_cons_False. Qed.

Lemma occurrences_app (c : Call) (l1 l2 : list Call) :
  occurrences c (l1 ++ l2) = (occurrences c l1 + occurrences c l2)%nat.
Proof. unfold occurrences. now rewrite filter_app, length_app. Qed.

Ltac count_calls :=
  repeat first
    [ rewrite occurrences_cons_eq
    | rewrite occurrences_cons_ne by discriminate
    | rewrite occurrences_nil ];
  try reflexivity.

(** ** The connection task *)

Section ConnectionTask.

Context {U : Type}.
Variable Socket_close : U -> U.
Variable q : BaseStreamServer_vtable U.
Variable request : SocketLike.

(** C1, as the code has it. When [processRequest] is interrupted by
    [CoroutineExitException] and the two clean-up members return,
    [handleRequest] calls [shutdownRequest] and then [closeRequest] on the
    connection, does not call [handleError], and then returns normally:
    the exception is caught and not thrown again. The connection task,
    whose whole body is this call, ends by that return. *)
Theorem handleRequest_cancellation (fuel : nat) (m : Machine U) s1 s2 s3 :
  processRequest q request (server m) = (Throws CoroutineExitException, s1) ->
  shutdownRequest q request s1 = (Returns tt, s2) ->
  closeRequest q request s2 = (Returns tt, s3) ->
  handleRequest q request m
  = (Returns tt,
     mkMachine s3 (calls m ++ [Call_processRequest request;
                               Call_shutdownRequest request;
                               Call_closeRequest request]))
  /\ run_task Socket_close q fuel (HandleRequestTask request) m
     = handleRequest q request m.
Proof.
intros Hp Hs Hc. split; [|reflexivity].
now apply handleRequest_catch_exit_returns with (s1 := s1) (s2 := s2).
Qed.

(** C3. When [processRequest] throws anything but
    [CoroutineExitException] and the clean-up members return,
    [handleRequest] calls [handleError], then [shutdownRequest], then
    [closeRequest], in that order, and returns normally: nothing
    propagates out of the connection task. *)
Theorem handleRequest_failure (fuel : nat) (m : Machine U) what s1 s2 s3 s4 :
  processRequest q request (server m) = (Throws (OtherException what), s1) ->
  handleError q request s1 = (Returns tt, s2) ->
  shutdownRequest q request s2 = (Returns tt, s3) ->
  closeRequest q request s3 = (Returns tt, s4) ->
  handleRequest q request m
  = (Returns tt,
     mkMachine s4 (calls m ++ [Call_processRequest request;
                               Call_handleError request;
                               Call_shutdownRequest request;
                               Call_closeRequest request]))
  /\ run_task Socket_close q fuel (HandleRequestTask request) m
     = handleRequest q request m.
Proof.
intros Hp He Hs Hc. split; [|reflexivity].
now apply handleRequest_catch_all_returns with (what := what) (s1 := s1) (s2 := s2) (s3 := s3).
Qed.

End ConnectionTask.

(** ** The record of calls only grows *)

Lemma extends_ret {U A} (a : A) : extends (U:=U) (ret a).
Proof. intros m. exists []. simpl. now rewrite app_nil_r. Qed.

Lemma extends_diverge {U A} : extends (U:=U) (A:=A) diverge.
Proof. intros m. exists []. simpl. now rewrite app_nil_r. Qed.

Lemma extends_call {U A} (c : Call) (body : M (BaseStreamServer U) A) :
  extends (call c body).
Proof. intros m. exists [c]. apply call_calls. Qed.

Lemma extends_bind {U A B} (f : M (Machine U) A) (k : A -> M (Machine U) B) :
  extends f -> (forall a, extends (k a)) -> extends (bind f k).
Proof.
  intros Hf Hk m. destruct (Hf m) as [l Hl]. unfold bind.
  destruct (f m) as [[a|e|] m1]; simpl in *; eauto.
  destruct (Hk a m1) as [l' Hl']. exists (l ++ l').
  now rewrite Hl', Hl, app_assoc.
Qed.

Lemma extends_try_catch {U A} (f : M (Machine U) A) h :
  extends f -> (forall e, extends (h e)) -> extends (try_catch f h).
Proof.
  intros Hf Hh m. destruct (Hf m) as [l Hl]. unfold try_catch.
  destruct (f m) as [[a|e|] m1]; simpl in *; eauto.
  destruct (Hh e m1) as [l' Hl']. exists (l ++ l').
  now rewrite Hl', Hl, app_assoc.
Qed.

Create HintDb extends.
#[global] Hint Resolve extends_ret extends_diverge extends_call : extends.

Ltac solve_extends :=
  repeat first
    [ apply extends_bind; [| intros ? ]
    | apply extends_try_catch; [| intros ? ]
    | match goal with |- extends (if ?b then _ else _) => destruct b end
    | match goal with |- extends (match ?x with _ => _ end) => destruct x end
    | solve [ auto with extends ] ].

(** ** The accept loop *)

Section AcceptLoop.

Context {U : Type}.
Variable Socket_close : U -> U.
Variable q : BaseStreamServer_vtable U.

Lemma extends_serveForever_body : extends (serveForever_body q).
Proof.
unfold serveForever_body, q_getRequest, q_verifyRequest, q_shutdownRequest,
  q_closeRequest, q_serviceActions, operations_spawn.
solve_extends.
Qed.

Lemma extends_serveForever_loop (fuel : nat) : extends (serveForever_loop q fuel).
Proof.
induction fuel as [|fuel IH]; simpl.
- apply extends_diverge.
- apply extends_bind; [apply extends_serveForever_body|].
  intros [|]; auto with extends.
Qed.

(** Each pass starts by calling [getRequest]. *)
Lemma serveForever_body_first_call (m : Machine U) :
  exists l, calls (snd (serveForever_body q m)) = calls m ++ Call_getRequest :: l.
Proof.
unfold serveForever_body, q_getRequest.
destruct (getRequest q (server m)) as [r s1] eqn:Hg.
destruct r as [[request|]|e|]; step_call Hg;
  try (exists []; reflexivity).
match goal with
| |- context [bind ?f ?k ?m0] =>
    assert (Hx : extends (bind f k)); [|destruct (Hx m0) as [l Hl]]
end.
{ unfold q_verifyRequest, q_shutdownRequest, q_closeRequest, q_serviceActions,
    operations_spawn. solve_extends. }
exists l. rewrite Hl. cbn [calls]. now rewrite <- app_assoc.
Qed.

Lemma serveForever_loop_first_call (fuel : nat) (m : Machine U) :
  exists l,
    calls (snd (serveForever_loop q (S fuel) m)) = calls m ++ Call_getRequest :: l.
Proof.
destruct (serveForever_body_first_call m) as [l Hl].
cbn [serveForever_loop]. unfold bind at 1.
destruct (serveForever_body q m) as [[[|]|e|] m1]; simpl in Hl; eauto.
destruct (extends_serveForever_loop fuel m1) as [l' Hl'].
exists (l ++ l'). rewrite Hl', Hl. now rewrite <- app_assoc.
Qed.

(** The two ways out of the loop. *)
Lemma serveForever_body_accept_failed (m : Machine U) s1 :
  getRequest q (server m) = (Returns None, s1) ->
  serveForever_body q m = (Returns Break, mkMachine s1 (calls m ++ [Call_getRequest])).
Proof.
intros Hg. unfold serveForever_body, q_getRequest. now step_call Hg.
Qed.

Lemma serveForever_loop_break (fuel : nat) (m m' : Machine U) :
  serveForever_body q m = (Returns Break, m') ->
  serveForever_loop q (S fuel) m = (Returns tt, m').
Proof. intros H. cbn [serveForever_loop]. now rewrite (bind_returns _ _ _ _ _ H). Qed.

Lemma serveForever_loop_continue (fuel : nat) (m m' : Machine U) :
  serveForever_body q m = (Returns Continue, m') ->
  serveForever_loop q (S fuel) m = serveForever_loop q fuel m'.
Proof. intros H. cbn [serveForever_loop]. now rewrite (bind_returns _ _ _ _ _ H). Qed.

(** The state in which the loop is entered. *)
Lemma serveForever_prologue (m : Machine U) :
  (started_set ;; stopped_clear) m
  = (Returns tt,
     mkMachine
       (set_stopped (Event_clear (stopped (server m)))
          (set_started (Event_set (started (server m))) (server m)))
       (calls m ++ [Call_started_set; Call_stopped_clear])).
Proof.
unfold bind, started_set, stopped_clear, call, modify. simpl.
now rewrite <- app_assoc.
Qed.

(** What follows the loop. *)
Lemma serveForever_epilogue (m : Machine U) :
  (serverClose Socket_close ;; started_clear ;; stopped_set) m
  = (Returns tt,
     mkMachine
       (set_stopped (Event_set (stopped (server m)))
          (set_started (Event_clear (started (server m)))
             (set_env (Socket_close (env (server m))) (server m))))
       (calls m ++ [Call_serverClose; Call_started_clear; Call_stopped_set])).
Proof.
unfold bind, serverClose, started_clear, stopped_set, call,
  BaseStreamServer_serverClose, on_env, modify. simpl.
now rewrite <- !app_assoc.
Qed.

(** [serveForever] is the loop run from the entry state, then the three
    closing calls. *)
Lemma d_serveForever_entered (fuel : nat) (m : Machine U) :
  d_serveForever Socket_close q fuel m
  = (serveForever_loop q fuel ;;
     serverClose Socket_close ;; started_clear ;; stopped_set)
      (mkMachine
         (set_stopped (Event_clear (stopped (server m)))
            (set_started (Event_set (started (server m))) (server m)))
         (calls m ++ [Call_started_set; Call_stopped_clear])).
Proof.
unfold d_serveForever.
unfold bind at 1. unfold started_set at 1, call at 1, modify at 1. cbn [server calls].
unfold bind at 1. unfold stopped_clear at 1, call at 1, modify at 1. cbn [server calls].
now rewrite <- app_assoc.
Qed.

(** C6, as the code has it. Every run of
    [BaseStreamServerPrivate::serveForever] first sets [started] and clears
    [stopped], and only then enters the loop, whose first call is
    [getRequest]: the loop starts on a server with [started] set and
    [stopped] clear. When the loop is left by one of its two [break]s (a
    null request, or [serviceActions] answering [false]), control goes on
    to close the listening socket, then clear [started], then set
    [stopped], in that order, and the function returns with [started]
    clear and [stopped] set. When an exception thrown inside the loop
    leaves it, the exception leaves the function too, from the state the
    loop reached: the three closing statements are not run. *)
Theorem serveForever_event_order (fuel : nat) (m : Machine U) :
  exists m0,
    (started_set ;; stopped_clear) m = (Returns tt, m0)
    /\ calls m0 = calls m ++ [Call_started_set; Call_stopped_clear]
    /\ Event_isSet (started (server m0)) = true
    /\ Event_isSet (stopped (server m0)) = false
    /\ d_serveForever Socket_close q fuel m
       = (serveForever_loop q fuel ;;
          serverClose Socket_close ;; started_clear ;; stopped_set) m0
    /\ (exists l,
          calls (snd (d_serveForever Socket_close q (S fuel) m))
          = calls m ++ [Call_started_set; Call_stopped_clear; Call_getRequest] ++ l)
    /\ (forall m1,
          serveForever_loop q fuel m0 = (Returns tt, m1) ->
          exists m2,
            d_serveForever Socket_close q fuel m = (Returns tt, m2)
            /\ calls m2
               = calls m1 ++ [Call_serverClose; Call_started_clear; Call_stopped_set]
            /\ env (server m2) = Socket_close (env (server m1))
            /\ Event_isSet (started (server m2)) = false
            /\ Event_isSet (stopped (server m2)) = true)
    /\ (forall e m1,
          serveForever_loop q fuel m0 = (Throws e, m1) ->
          d_serveForever Socket_close q fuel m = (Throws e, m1)).
Proof.
eexists. split; [apply serveForever_prologue|].
set (m0 := mkMachine _ _).
assert (Hd : forall n, d_serveForever Socket_close q n m
             = (serveForever_loop q n ;;
                serverClose Socket_close ;; started_clear ;; stopped_set) m0)
  by (intros n; apply d_serveForever_entered).
repeat split; try reflexivity; [apply Hd| | |].
- rewrite Hd.
  destruct (serveForever_loop_first_call fuel m0) as [l Hl].
  unfold bind at 1.
  destruct (serveForever_loop q (S fuel) m0) as [[[]|e|] m1]; simpl in Hl;
    try (exists l; cbn [snd]; rewrite Hl; subst m0; cbn [calls];
         now rewrite <- app_assoc).
  rewrite serveForever_epilogue. cbn [snd calls]. rewrite Hl.
  exists (l ++ [Call_serverClose; Call_started_clear; Call_stopped_set]).
  subst m0. cbn [calls]. now rewrite <- !app_assoc.
- intros m1 H1. rewrite Hd. rewrite (bind_returns _ _ _ _ _ H1).
  rewrite serveForever_epilogue. eexists. split; [reflexivity|].
  now repeat split.
- intros e m1 H1. rewrite Hd. now rewrite (bind_throws _ _ _ _ _ H1).
Qed.

End AcceptLoop.

(** ** Admission *)

Section Admission.

Context {U : Type}.
Variable q : BaseStreamServer_vtable U.
Variable request : SocketLike.

(** The pass for a connection that [verifyRequest] turns down, up to the
    call of [serviceActions]. *)
Lemma serveForever_body_rejected (m : Machine U) s1 s2 s3 s4 :
  getRequest q (server m) = (Returns (Some request), s1) ->
  verifyRequest q request s1 = (Returns false, s2) ->
  shutdownRequest q request s2 = (Returns tt, s3) ->
  closeRequest q request s3 = (Returns tt, s4) ->
  serveForever_body q m
  = (go_on <- q_serviceActions q ;;
     if negb go_on then ret Break else ret Continue)
      (mkMachine s4 (calls m ++ [Call_getRequest;
                                 Call_verifyRequest request;
                                 Call_shutdownRequest request;
                                 Call_closeRequest request])).
Proof.
intros Hg Hv Hs Hc.
unfold serveForever_body, q_getRequest, q_verifyRequest.
step_call Hg. step_call Hv. cbn [negb].
match goal with
| |- context [bind _ _ ?m0] =>
    rewrite (bind_returns _ _ m0 tt _ (shutdown_close_returns q request m0 _ _ Hs Hc))
end.
cbn [calls]. now rewrite <- !app_assoc.
Qed.

(** The pass for a connection that [verifyRequest] admits. *)
Lemma serveForever_body_admitted (m : Machine U) s1 s2 :
  getRequest q (server m) = (Returns (Some request), s1) ->
  verifyRequest q request s1 = (Returns true, s2) ->
  serveForever_body q m
  = (go_on <- q_serviceActions q ;;
     if negb go_on then ret Break else ret Continue)
      (mkMachine
         (with_operations (CoroutineGroup_spawn (HandleRequestTask request)) s2)
         (calls m ++ [Call_getRequest; Call_verifyRequest request; Call_spawn request])).
Proof.
intros Hg Hv.
unfold serveForever_body, q_getRequest, q_verifyRequest.
step_call Hg. step_call Hv.
unfold operations_spawn, bind at 1, call at 1, modify. cbn [server calls].
now rewrite <- !app_assoc.
Qed.

(** [serviceActions] signalling stop ends the loop. *)
Lemma serviceActions_stop (m : Machine U) s1 :
  serviceActions q (server m) = (Returns false, s1) ->
  (go_on <- q_serviceActions q ;; if negb go_on then ret Break else ret Continue) m
  = (Returns Break, mkMachine s1 (calls m ++ [Call_serviceActions])).
Proof. intros Ha. unfold q_serviceActions. now step_call Ha. Qed.

Lemma serviceActions_go_on (m : Machine U) s1 :
  serviceActions q (server m) = (Returns true, s1) ->
  (go_on <- q_serviceActions q ;; if negb go_on then ret Break else ret Continue) m
  = (Returns Continue, mkMachine s1 (calls m ++ [Call_serviceActions])).
Proof. intros Ha. unfold q_serviceActions. now step_call Ha. Qed.

(** C7, as the code has it. A connection that [getRequest] hands over
    and [verifyRequest] turns down is not spawned; [shutdownRequest] and
    then [closeRequest] are called on it, once each. The pass then reaches
    [serviceActions], as every pass does: the loop goes on with its next
    pass when that member answers [true], and is left when it answers
    [false]. *)
Theorem rejected_request_not_spawned
    (fuel : nat) (m : Machine U) s1 s2 s3 s4 s5 (go_on : bool) :
  getRequest q (server m) = (Returns (Some request), s1) ->
  verifyRequest q request s1 = (Returns false, s2) ->
  shutdownRequest q request s2 = (Returns tt, s3) ->
  closeRequest q request s3 = (Returns tt, s4) ->
  serviceActions q s4 = (Returns go_on, s5) ->
  exists m',
    serveForever_body q m = (Returns (if go_on then Continue else Break), m')
    /\ server m' = s5
    /\ new_calls m m' = [Call_getRequest;
                         Call_verifyRequest request;
                         Call_shutdownRequest request;
                         Call_closeRequest request;
                         Call_serviceActions]
    /\ occurrences (Call_spawn request) (new_calls m m') = 0%nat
    /\ occurrences (Call_shutdownRequest request) (new_calls m m') = 1%nat
    /\ occurrences (Call_closeRequest request) (new_calls m m') = 1%nat
    /\ serveForever_loop q (S fuel) m
       = (if go_on then serveForever_loop q fuel m' else (Returns tt, m')).
Proof.
intros Hg Hv Hs Hc Ha.
pose proof (serveForever_body_rejected m _ _ _ _ Hg Hv Hs Hc) as Hb.
assert (Hb' : serveForever_body q m
              = (Returns (if go_on then Continue else Break),
                 mkMachine s5 (calls m ++ [Call_getRequest;
                                           Call_verifyRequest request;
                                           Call_shutdownRequest request;
                                           Call_closeRequest request;
                                           Call_serviceActions]))).
{ rewrite Hb. destruct go_on.
  - rewrite serviceActions_go_on with (s1 := s5) by exact Ha.
    cbn [calls]. now rewrite <- app_assoc.
  - rewrite serviceActions_stop with (s1 := s5) by exact Ha.
    cbn [calls]. now rewrite <- app_assoc. }
eexists. split; [exact Hb'|].
rewrite new_calls_app.
repeat split; try (count_calls; fail).
cbn [serveForever_loop]. rewrite (bind_returns _ _ _ _ _ Hb').
now destruct go_on.
Qed.

(** C2, as the code has it. With clean-up members that return, the core
    calls [closeRequest] on a connection exactly once when [verifyRequest]
    turns it down and exactly once when its [processRequest] throws, be it
    the kill signal or any other exception. When [processRequest] returns
    normally the core calls neither [shutdownRequest] nor [closeRequest]:
    closing is then the business of [processRequest]. *)
Theorem closeRequest_once_on_cleanup_paths (m : Machine U) :
  cleanup_returns q ->
  (forall e s1,
      processRequest q request (server m) = (Throws e, s1) ->
      fst (handleRequest q request m) = Returns tt
      /\ occurrences (Call_closeRequest request)
           (new_calls m (snd (handleRequest q request m))) = 1%nat)
  /\ (forall s1 s2,
         getRequest q (server m) = (Returns (Some request), s1) ->
         verifyRequest q request s1 = (Returns false, s2) ->
         occurrences (Call_closeRequest request)
           (new_calls m (snd (serveForever_body q m))) = 1%nat
         /\ occurrences (Call_spawn request)
              (new_calls m (snd (serveForever_body q m))) = 0%nat)
  /\ (forall s1,
         processRequest q request (server m) = (Returns tt, s1) ->
         handleRequest q request m
         = (Returns tt, mkMachine s1 (calls m ++ [Call_processRequest request]))
         /\ occurrences (Call_closeRequest request)
              (new_calls m (snd (handleRequest q request m))) = 0%nat
         /\ occurrences (Call_shutdownRequest request)
              (new_calls m (snd (handleRequest q request m))) = 0%nat).
Proof.
intros Hq. split; [|split].
- intros e s1 Hp.
  destruct e as [|what].
  + destruct (Hq request s1) as (_ & [s2 Hs] & _).
    destruct (Hq request s2) as (_ & _ & [s3 Hc]).
    rewrite (handleRequest_catch_exit_returns q request m _ _ _ Hp Hs Hc).
    cbn [fst snd]. rewrite new_calls_app. split; [reflexivity|count_calls].
  + destruct (Hq request s1) as ([s2 He] & _ & _).
    destruct (Hq request s2) as (_ & [s3 Hs] & _).
    destruct (Hq request s3) as (_ & _ & [s4 Hc]).
    rewrite (handleRequest_catch_all_returns q request m _ _ _ _ _ Hp He Hs Hc).
    cbn [fst snd]. rewrite new_calls_app. split; [reflexivity|count_calls].
- intros s1 s2 Hg Hv.
  destruct (Hq request s2) as (_ & [s3 Hs] & _).
  destruct (Hq request s3) as (_ & _ & [s4 Hc]).
  rewrite (serveForever_body_rejected m _ _ _ _ Hg Hv Hs Hc).
  unfold q_serviceActions, bind, call. cbn [server calls].
  destruct (serviceActions q s4) as [[[|]|e|] s5]; cbn [negb ret snd];
    rewrite <- app_assoc; rewrite new_calls_app; cbn [app]; split; count_calls.
- intros s1 Hp. rewrite (handleRequest_returns _ _ _ _ Hp).
  cbn [snd]. rewrite new_calls_app. repeat split; count_calls.
Qed.

End Admission.

(** ** [start] and the blocking [serveForever] *)

Section Start.

Context {U : Type}.
Variable Socket_bind : QHostAddress -> Z -> BindMode -> U -> bool * U.
Variable Socket_listen : Z -> U -> bool * U.
Variable Socket_close : U -> U.
Variable q : BaseStreamServer_vtable U.

Local Abbreviation start' := (start Socket_bind Socket_listen Socket_close).
Local Abbreviation serveForever' := (serveForever Socket_bind Socket_listen Socket_close q).
Local Abbreviation serverBind' := (serverBind Socket_bind).
Local Abbreviation serverActivate' := (serverActivate Socket_listen).
Local Abbreviation serverClose' := (serverClose Socket_close).

(** [serverBind] and [serverActivate] always return, with the socket's
    answer. *)
Lemma serverBind_returns (m : Machine U) :
  exists ok u,
    serverBind' m
    = (Returns ok, mkMachine (set_env u (server m)) (calls m ++ [Call_serverBind])).
Proof.
unfold serverBind, call, BaseStreamServer_serverBind.
destruct (Socket_bind _ _ _ _) as [ok u]. now exists ok, u.
Qed.

Lemma serverActivate_returns (m : Machine U) :
  exists ok u,
    serverActivate' m
    = (Returns ok, mkMachine (set_env u (server m)) (calls m ++ [Call_serverActivate])).
Proof.
unfold serverActivate, call, BaseStreamServer_serverActivate.
destruct (Socket_listen _ _) as [ok u]. now exists ok, u.
Qed.

Lemma serverClose_returns (m : Machine U) :
  serverClose' m
  = (Returns tt,
     mkMachine (set_env (Socket_close (env (server m))) (server m))
               (calls m ++ [Call_serverClose])).
Proof. reflexivity. Qed.

(** Past the guard, [start] and [serveForever] share the bind and listen
    steps and their failure exits. *)
Lemma start_past_guard (m : Machine U) :
  Event_isSet (started (server m)) = false ->
  CoroutineGroup_has "serve" (operations (d_ptr (server m))) = false ->
  start' m
  = (ok <- serverBind' ;;
     if negb ok then serverClose' ;; ret false
     else ok <- serverActivate' ;;
          if negb ok then serverClose' ;; ret false
          else operations_spawnWithName "serve" ;; ret true) m.
Proof.
intros Hs Hh. unfold start, read, bind at 1 2. now rewrite Hs, Hh.
Qed.

(** C4. With [started] set, or with a task named "serve" in the group,
    [start] returns [true] and leaves everything as it was: no call to
    bind, listen or close, no task spawned, the group and its "serve"
    entry untouched. *)
Theorem start_when_running_is_noop (m : Machine U) :
  Event_isSet (started (server m)) = true
  \/ CoroutineGroup_has "serve" (operations (d_ptr (server m))) = true ->
  start' m = (Returns true, m)
  /\ new_calls m (snd (start' m)) = []
  /\ operations (d_ptr (server (snd (start' m)))) = operations (d_ptr (server m)).
Proof.
intros H.
assert (E : start' m = (Returns true, m)).
{ unfold start, read, bind at 1 2.
  destruct H as [-> | ->]; [reflexivity|].
  now rewrite orb_true_r. }
rewrite E. repeat split.
unfold new_calls. apply drop_all.
Qed.

(** A second [start] right after a successful one does nothing. *)
Lemma start_twice (m m1 : Machine U) :
  start' m = (Returns true, m1) ->
  start' m1 = (Returns true, m1).
Proof.
intros H.
destruct (Event_isSet (started (server m))) eqn:Hs.
{ assert (E : start' m = (Returns true, m))
    by (unfold start, read, bind at 1 2; now rewrite Hs).
  rewrite E in H. injection H as <-. exact E. }
destruct (CoroutineGroup_has "serve" (operations (d_ptr (server m)))) eqn:Hh.
{ assert (E : start' m = (Returns true, m))
    by (unfold start, read, bind at 1 2; now rewrite Hs, Hh).
  rewrite E in H. injection H as <-. exact E. }
rewrite (start_past_guard m Hs Hh) in H.
destruct (serverBind_returns m) as (ok & u & Eb).
rewrite (bind_returns _ _ _ _ _ Eb) in H.
destruct ok; cbn [negb] in H; [|discriminate H].
match type of H with
| context [bind _ _ ?m0] =>
    destruct (serverActivate_returns m0) as (ok & u' & Ea);
    rewrite (bind_returns _ _ _ _ _ Ea) in H
end.
destruct ok; cbn [negb] in H; [|discriminate H].
unfold bind, operations_spawnWithName, call, modify, ret in H.
cbn [server calls] in H. injection H as <-.
unfold start, read, bind at 1 2. cbn [server d_ptr].
replace (CoroutineGroup_has "serve" _) with true; [now rewrite orb_true_r|].
symmetry. cbn. unfold CoroutineGroup_spawnWithName.
cbn in Hh. rewrite Hh. unfold CoroutineGroup_has. cbn.
apply bool_decide_eq_true. rewrite lookup_insert_eq. eauto.
Qed.

(** C5. On a server that was never started, when [bind] fails, or
    [listen] fails after it, both [start] and the blocking [serveForever]
    return [false]; what they did is bind, possibly listen, and last of
    all close the listening socket; no task is spawned, the accept loop is
    never entered, and [started] is still clear and [stopped] still set. *)
Theorem bind_or_listen_failure (fuel : nat) (m : Machine U) :
  Event_isSet (started (server m)) = false ->
  Event_isSet (stopped (server m)) = true ->
  CoroutineGroup_has "serve" (operations (d_ptr (server m))) = false ->
  fst (serverBind' m) = Returns false
  \/ fst (serverActivate' (snd (serverBind' m))) = Returns false ->
  exists m1 m',
    start' m = (Returns false, m')
    /\ serveForever' fuel m = (Returns false, m')
    /\ serverClose' m1 = (Returns tt, m')
    /\ (new_calls m m' = [Call_serverBind; Call_serverClose]
        \/ new_calls m m' = [Call_serverBind; Call_serverActivate; Call_serverClose])
    /\ operations (d_ptr (server m')) = operations (d_ptr (server m))
    /\ Event_isSet (started (server m')) = false
    /\ Event_isSet (stopped (server m')) = true.
Proof.
intros Hs Ht Hh Hfail.
rewrite (start_past_guard m Hs Hh). unfold serveForever.
destruct (serverBind_returns m) as (ok & u & Eb).
rewrite Eb in Hfail. cbn [fst snd] in Hfail.
rewrite !(bind_returns _ _ _ _ _ Eb).
destruct ok; cbn [negb].
- destruct Hfail as [Hfail|Hfail]; [discriminate Hfail|].
  match goal with
  | |- context [bind _ _ ?m0] =>
      destruct (serverActivate_returns m0) as (ok & u' & Ea)
  end.
  rewrite Ea in Hfail. cbn [fst] in Hfail. injection Hfail as ->.
  rewrite !(bind_returns _ _ _ _ _ Ea). cbn [negb].
  eexists. eexists.
  split; [reflexivity|]. split; [reflexivity|]. split; [reflexivity|].
  cbn [server calls]. rewrite <- !app_assoc, new_calls_app. cbn [app].
  split; [now right|]. now repeat split.
- eexists. eexists.
  split; [reflexivity|]. split; [reflexivity|]. split; [reflexivity|].
  cbn [server calls]. rewrite <- !app_assoc, new_calls_app. cbn [app].
  split; [now left|]. now repeat split.
Qed.

End Start.

(** ** [BaseSslStreamServer::getRequest] *)

Section SslGetRequest.

Context {U : Type}.
Variable Socket_accept : M U (option Socket).
Variable SslSocket_handshake : SslSocket -> bool -> M U bool.

Local Abbreviation ssl_getRequest :=
  (BaseSslStreamServer_getRequest Socket_accept SslSocket_handshake).

(** One turn of the loop: a raw connection whose handshake fails is
    dropped and the loop goes round again. *)
Lemma ssl_getRequest_retry (fuel : nat) (s : BaseStreamServer U) raw u1 u2 :
  Socket_accept (env s) = (Returns (Some raw), u1) ->
  SslSocket_handshake (mkSslSocket raw (configuration (d_ptr s))) true u1
  = (Returns false, u2) ->
  ssl_getRequest (S fuel) s = ssl_getRequest fuel (set_env u2 s).
Proof.
intros Ha Hh. cbn [BaseSslStreamServer_getRequest].
unfold bind at 1, on_env at 1. rewrite Ha.
unfold bind at 1, gets at 1. unfold bind at 1, on_env at 1.
cbn [env set_env d_ptr]. now rewrite Hh.
Qed.

Lemma ssl_getRequest_handshaken (fuel : nat) (s : BaseStreamServer U) raw u1 u2 :
  Socket_accept (env s) = (Returns (Some raw), u1) ->
  SslSocket_handshake (mkSslSocket raw (configuration (d_ptr s))) true u1
  = (Returns true, u2) ->
  ssl_getRequest (S fuel) s
  = (Returns (Some (sslSocket (mkSslSocket raw (configuration (d_ptr s))))),
     set_env u2 s).
Proof.
intros Ha Hh. cbn [BaseSslStreamServer_getRequest].
unfold bind at 1, on_env at 1. rewrite Ha.
unfold bind at 1, gets at 1. unfold bind at 1, on_env at 1.
cbn [env set_env d_ptr]. now rewrite Hh.
Qed.

Lemma ssl_getRequest_accept_failed (fuel : nat) (s : BaseStreamServer U) u1 :
  Socket_accept (env s) = (Returns None, u1) ->
  ssl_getRequest (S fuel) s = (Returns None, set_env u1 s).
Proof.
intros Ha. cbn [BaseSslStreamServer_getRequest].
unfold bind at 1, on_env at 1. now rewrite Ha.
Qed.

(** A null result always comes from a null [accept]. *)
Lemma ssl_getRequest_none_from_accept (fuel : nat) (s s' : BaseStreamServer U) :
  ssl_getRequest fuel s = (Returns None, s') ->
  exists s0, on_env Socket_accept s0 = (Returns None, s').
Proof.
revert s. induction fuel as [|fuel IH]; intros s H; [discriminate H|].
cbn [BaseSslStreamServer_getRequest] in H.
unfold bind at 1 in H.
destruct (on_env Socket_accept s) as [[[raw|]|e|] s1] eqn:Ha; try discriminate H.
- unfold bind at 1, gets at 1 in H. unfold bind at 1 in H.
  destruct (on_env (SslSocket_handshake _ true) s1) as [[[|]|e|] s2];
    try discriminate H.
  cbn [negb] in H. eauto.
- unfold ret in H. injection H as <-. eauto.
Qed.

(** A connection is only ever returned after its handshake succeeded. *)
Lemma ssl_getRequest_some_handshaken (fuel : nat) (s s' : BaseStreamServer U) c :
  ssl_getRequest fuel s = (Returns (Some c), s') ->
  exists raw s0,
    c = sslSocket (mkSslSocket raw (configuration (d_ptr s0)))
    /\ on_env (SslSocket_handshake (mkSslSocket raw (configuration (d_ptr s0))) true) s0
       = (Returns true, s').
Proof.
revert s. induction fuel as [|fuel IH]; intros s H; [discriminate H|].
cbn [BaseSslStreamServer_getRequest] in H.
unfold bind at 1 in H.
destruct (on_env Socket_accept s) as [[[raw|]|e|] s1] eqn:Ha; try discriminate H.
unfold bind at 1, gets at 1 in H. unfold bind at 1 in H.
destruct (on_env (SslSocket_handshake _ true) s1) as [[[|]|e|] s2] eqn:Hh;
  try discriminate H; cbn [negb] in H.
- unfold ret in H. injection H as <- <-. eauto.
- eauto.
Qed.

End SslGetRequest.

(** C8. On the server facing a scripted world, whatever the script: let
    [bad] be the raw connections at its front whose handshake fails. Each
    of them is accepted and dropped, and the call goes on to the next raw
    connection. If a connection [good] with a successful handshake comes
    next, it alone is returned, wrapped as an SSL socket; if a null accept
    comes next, or the script ends, the result is null. No other result
    and no exception reaches the caller. *)
Theorem ssl_getRequest_skips_failed_handshakes
    (fuel : nat) (s : BaseStreamServer Script.World)
    (bad : list Socket) (rest : list (option Socket)) :
  Forall (fun raw => Script.tls_ok (env s) raw = false) bad ->
  (length bad < fuel)%nat ->
  (forall good,
      Script.tls_ok (env s) good = true ->
      Script.incoming (env s) = map Some bad ++ Some good :: rest ->
      getRequest (Script.ssl fuel) s
      = (Returns (Some (sslSocket (mkSslSocket good (configuration (d_ptr s))))),
         set_env (Script.set_incoming rest (env s)) s))
  /\ (Script.incoming (env s) = map Some bad ++ None :: rest ->
      getRequest (Script.ssl fuel) s
      = (Returns None, set_env (Script.set_incoming rest (env s)) s))
  /\ (Script.incoming (env s) = map Some bad ->
      fst (getRequest (Script.ssl fuel) s) = Returns None
      /\ Script.incoming (env (snd (getRequest (Script.ssl fuel) s))) = []).
Proof.
cbn [getRequest Script.ssl BaseSslStreamServer_vtbl].
revert fuel s. induction bad as [|raw bad IH]; intros fuel s Hbad Hfuel.
- destruct fuel as [|fuel]; [simpl in Hfuel; lia|].
  split; [|split].
  + intros good Hgood Hin.
    erewrite ssl_getRequest_handshaken.
    * reflexivity.
    * unfold Script.Socket_accept. rewrite Hin. reflexivity.
    * unfold Script.SslSocket_handshake. cbn. now rewrite Hgood.
  + intros Hin. erewrite ssl_getRequest_accept_failed; [reflexivity|].
    unfold Script.Socket_accept. now rewrite Hin.
  + intros Hin.
    rewrite (ssl_getRequest_accept_failed _ _ fuel s (env s)).
    * now split.
    * unfold Script.Socket_accept. now rewrite Hin.
- destruct fuel as [|fuel]; [simpl in Hfuel; lia|].
  simpl in Hfuel.
  apply Forall_cons in Hbad as [Hraw Hbad].
  assert (Hstep : forall tail,
             Script.incoming (env s) = Some raw :: tail ->
             BaseSslStreamServer_getRequest Script.Socket_accept
               Script.SslSocket_handshake (S fuel) s
             = BaseSslStreamServer_getRequest Script.Socket_accept
                 Script.SslSocket_handshake fuel
                 (set_env (Script.set_incoming tail (env s)) s)).
  { intros tail Hin. eapply ssl_getRequest_retry.
    - unfold Script.Socket_accept. rewrite Hin. reflexivity.
    - unfold Script.SslSocket_handshake. cbn. now rewrite Hraw. }
  split; [|split].
  + intros good Hgood Hin.
    rewrite (Hstep (map Some bad ++ Some good :: rest) Hin).
    destruct (IH fuel (set_env (Script.set_incoming (map Some bad ++ Some good :: rest)
                                  (env s)) s)) as (H1 & _ & _);
      [exact Hbad|lia|].
    now rewrite (H1 good Hgood eq_refl).
  + intros Hin. rewrite (Hstep (map Some bad ++ None :: rest) Hin).
    destruct (IH fuel (set_env (Script.set_incoming (map Some bad ++ None :: rest)
                                  (env s)) s)) as (_ & H2 & _);
      [exact Hbad|lia|].
    now rewrite (H2 eq_refl).
  + intros Hin. rewrite (Hstep (map Some bad) Hin).
    destruct (IH fuel (set_env (Script.set_incoming (map Some bad) (env s)) s))
      as (_ & _ & H3); [exact Hbad|lia|].
    exact (H3 eq_refl).
Qed.

(** ** [BaseRequestHandler::run] *)

Section RequestHandler.

Context {U : Type}.
Variable h : BaseRequestHandler_vtable U.
Variable request : SocketLike.

(** When [setup] throws, nothing else is called. *)
Lemma run_setup_throws (m : Machine U) e s1 :
  setup h request (server m) = (Throws e, s1) ->
  BaseRequestHandler_run h request m
  = (Throws e, mkMachine s1 (calls m ++ [Call_setup request])).
Proof. intros Hs. unfold BaseRequestHandler_run. now step_call Hs. Qed.

(** When [handle] returns and the [finish] inside [try] throws, the
    [catch] clause calls [finish] a second time. *)
Lemma run_finish_called_again (m : Machine U) e s1 s2 s3 :
  setup h request (server m) = (Returns tt, s1) ->
  handle h request s1 = (Returns tt, s2) ->
  finish h request s2 = (Throws e, s3) ->
  BaseRequestHandler_run h request m
  = call (Call_finish request) (finish h request)
      (mkMachine s3 (calls m ++ [Call_setup request;
                                 Call_handle request;
                                 Call_finish request])).
Proof.
intros Hs Hh Hf. unfold BaseRequestHandler_run.
step_call Hs. step_call Hh. step_call Hf.
now rewrite <- !app_assoc.
Qed.

(** C9. After [setup] has returned, [run] calls [handle] and then
    [finish]. When [handle] and [finish] return, so does [run]. When
    [handle] throws, [finish] is still called, and [run] ends the way that
    call of [finish] ends: it returns normally when [finish] returns, and
    throws only what [finish] itself throws. *)
Theorem run_setup_handle_finish (m : Machine U) s1 :
  setup h request (server m) = (Returns tt, s1) ->
  (forall s2 s3,
      handle h request s1 = (Returns tt, s2) ->
      finish h request s2 = (Returns tt, s3) ->
      BaseRequestHandler_run h request m
      = (Returns tt,
         mkMachine s3 (calls m ++ [Call_setup request;
                                   Call_handle request;
                                   Call_finish request])))
  /\ (forall e s2 r s3,
         handle h request s1 = (Throws e, s2) ->
         finish h request s2 = (r, s3) ->
         BaseRequestHandler_run h request m
         = (r,
            mkMachine s3 (calls m ++ [Call_setup request;
                                      Call_handle request;
                                      Call_finish request]))).
Proof.
intros Hs. split.
- intros s2 s3 Hh Hf. unfold BaseRequestHandler_run.
  step_call Hs. step_call Hh. step_call Hf.
  now rewrite <- !app_assoc.
- intros e s2 r s3 Hh Hf. unfold BaseRequestHandler_run.
  step_call Hs. step_call Hh. step_call Hf.
  now rewrite <- !app_assoc.
Qed.

End RequestHandler.

(** ** [randomBytes] *)

Section RandomBytesLength.

Variable G : Type.
Variable initOpenSSL : G -> G.
Variable RAND_bytes : Z -> G -> (Z * list Byte.byte) * G.
Variable stale : nat -> Byte.byte.

Lemma QByteArray_resize_length (b : list Byte.byte) (size : Z) :
  0 <= size ->
  length (Random.QByteArray_resize stale b size) = Z.to_nat size.
Proof.
intros Hsize. unfold Random.QByteArray_resize.
rewrite Z.max_l by lia.
rewrite length_app, length_take, length_map, length_seq. lia.
Qed.

Lemma store_length (bytes b : list Byte.byte) :
  length (Random.store bytes b) = length b.
Proof.
unfold Random.store. rewrite length_app, length_take, length_drop. lia.
Qed.

(** C10. For every [i >= 0], whatever status [RAND_bytes] reports and
    whatever it wrote, [randomBytes i] is an array of exactly [i] bytes;
    the status is dropped and never reaches the caller. *)
Theorem randomBytes_length (i : Z) (g : G) :
  0 <= i ->
  length (fst (Random.randomBytes G initOpenSSL RAND_bytes stale i g)) = Z.to_nat i
  /\ Z.of_nat (length (fst (Random.randomBytes G initOpenSSL RAND_bytes stale i g))) = i.
Proof.
intros Hi.
assert (E : length (fst (Random.randomBytes G initOpenSSL RAND_bytes stale i g))
            = Z.to_nat i).
{ unfold Random.randomBytes.
  destruct (RAND_bytes i (initOpenSSL g)) as [[status bytes] g'].
  cbn [fst]. rewrite store_length. now apply QByteArray_resize_length. }
split; [exact E|]. rewrite E. lia.
Qed.

End RandomBytesLength.

(** ** The base server on a scripted world: the loop ends *)

Lemma scripted_getRequest_nil (s : BaseStreamServer Script.World) :
  Script.incoming (env s) = [] ->
  getRequest Script.base s = (Returns None, set_env (env s) s).
Proof.
intros Hin.
unfold Script.base, BaseStreamServer_vtbl, getRequest, BaseStreamServer_getRequest,
  bind, on_env, Script.Socket_accept.
now rewrite Hin.
Qed.

Lemma scripted_getRequest_cons (s : BaseStreamServer Script.World) r rest :
  Script.incoming (env s) = r :: rest ->
  getRequest Script.base s
  = (Returns (option_map rawSocket r), set_env (Script.set_incoming rest (env s)) s).
Proof.
intros Hin.
unfold Script.base, BaseStreamServer_vtbl, getRequest, BaseStreamServer_getRequest,
  bind, on_env, Script.Socket_accept.
rewrite Hin. now destruct r.
Qed.

Lemma scripted_loop_returns (fuel : nat) (m : Machine Script.World) :
  (length (Script.incoming (env (server m))) < fuel)%nat ->
  fst (serveForever_loop Script.base fuel m) = Returns tt.
Proof.
revert m. induction fuel as [|fuel IH]; intros m Hlen; [lia|].
destruct (Script.incoming (env (server m))) as [|r rest] eqn:Hin.
- erewrite serveForever_loop_break; [reflexivity|].
  apply serveForever_body_accept_failed.
  now apply scripted_getRequest_nil.
- destruct r as [raw|].
  + pose proof (serveForever_body_admitted Script.base (rawSocket raw) m _ _
                  (scripted_getRequest_cons _ _ _ Hin) eq_refl) as Hb.
    erewrite serviceActions_go_on in Hb by reflexivity.
    rewrite (serveForever_loop_continue _ _ _ _ Hb).
    apply IH. cbn. simpl in Hlen. lia.
  + erewrite serveForever_loop_break; [reflexivity|].
    apply serveForever_body_accept_failed.
    apply scripted_getRequest_cons with (r := None), Hin.
Qed.

(** On every script, the accept loop of the base server comes to its end
    and [serveForever] returns, with [started] clear and [stopped] set. *)
Lemma scripted_serveForever_returns (script : list (option Socket)) (tls : Socket -> bool) :
  exists m',
    d_serveForever Script.Socket_close Script.base (S (length script))
      (Script.fresh (Script.world0 script tls))
    = (Returns tt, m')
    /\ Event_isSet (started (server m')) = false
    /\ Event_isSet (stopped (server m')) = true.
Proof.
rewrite d_serveForever_entered.
match goal with |- context [bind _ _ ?m] => set (m0 := m) end.
pose proof (scripted_loop_returns (S (length script)) m0) as Hret.
destruct (serveForever_loop Script.base (S (length script)) m0) as [r m1] eqn:Hl.
cbn [fst] in Hret. rewrite Hret in Hl by (subst m0; cbn; lia).
rewrite (bind_returns _ _ _ _ _ Hl), serveForever_epilogue.
eexists. now repeat split.
Qed.

(** * The properties on the scripted world *)

(** C1, the claim as stated fails: [processRequest] is interrupted by
    [CoroutineExitException], and [handleRequest], after shutdown and
    close, returns normally instead of throwing it again. *)
Lemma cancellation_not_rethrown :
  processRequest Script.killed Script.conn1 (server Script.quiet)
  = (Throws CoroutineExitException, server Script.quiet)
  /\ calls (snd (handleRequest Script.killed Script.conn1 Script.quiet))
     = [Call_processRequest Script.conn1;
        Call_shutdownRequest Script.conn1;
        Call_closeRequest Script.conn1]
  /\ fst (handleRequest Script.killed Script.conn1 Script.quiet) = Returns tt
  /\ fst (handleRequest Script.killed Script.conn1 Script.quiet)
     <> Throws CoroutineExitException.
Proof. repeat split; try reflexivity. discriminate. Qed.

Lemma handleRequest_cancellation_witness :
  fst (handleRequest Script.killed Script.conn1 Script.quiet) = Returns tt
  /\ calls (snd (handleRequest Script.killed Script.conn1 Script.quiet))
     = [Call_processRequest Script.conn1;
        Call_shutdownRequest Script.conn1;
        Call_closeRequest Script.conn1]
  /\ Script.closed_after (handleRequest Script.killed Script.conn1 Script.quiet)
     = [Script.conn1].
Proof.
destruct (handleRequest_cancellation Script.Socket_close Script.killed Script.conn1
            0 Script.quiet _ _ _ eq_refl eq_refl eq_refl) as [E _].
rewrite E. repeat split.
Defined.

(** C2, the claim as stated fails: the loop accepts a connection and
    spawns its task; the task runs the [processRequest] of the base class
    to its normal end; [closeRequest] was never called and the connection
    was never closed. *)
Lemma normal_completion_never_closes :
  Script.spawned_after (d_serveForever Script.Socket_close Script.base 2 Script.one_waiting)
  = [HandleRequestTask Script.conn1]
  /\ fst (run_task Script.Socket_close Script.base 0 (HandleRequestTask Script.conn1)
            (snd (d_serveForever Script.Socket_close Script.base 2 Script.one_waiting)))
     = Returns tt
  /\ occurrences (Call_closeRequest Script.conn1)
       (calls (snd (run_task Script.Socket_close Script.base 0
                      (HandleRequestTask Script.conn1)
                      (snd (d_serveForever Script.Socket_close Script.base 2
                              Script.one_waiting)))))
     = 0%nat
  /\ Script.closed_after (run_task Script.Socket_close Script.base 0
                     (HandleRequestTask Script.conn1)
                     (snd (d_serveForever Script.Socket_close Script.base 2
                             Script.one_waiting)))
     = [].
Proof. repeat split. Qed.

Lemma cleanup_returns_subclass how wanted go_on :
  cleanup_returns (Script.subclass how wanted go_on).
Proof. intros request s. repeat split; eexists; reflexivity. Defined.

Lemma closeRequest_once_witness :
  occurrences (Call_closeRequest Script.conn1)
    (new_calls Script.quiet (snd (handleRequest Script.killed Script.conn1 Script.quiet)))
  = 1%nat
  /\ occurrences (Call_closeRequest Script.conn1)
       (new_calls Script.quiet
          (snd (handleRequest Script.failing Script.conn1 Script.quiet)))
     = 1%nat
  /\ occurrences (Call_closeRequest Script.conn1)
       (new_calls Script.one_waiting
          (snd (serveForever_body Script.rejecting Script.one_waiting)))
     = 1%nat.
Proof.
split; [|split].
- apply (closeRequest_once_on_cleanup_paths Script.killed Script.conn1 Script.quiet
           (cleanup_returns_subclass _ _ _)) with (e := CoroutineExitException)
                                                  (s1 := server Script.quiet).
  reflexivity.
- apply (closeRequest_once_on_cleanup_paths Script.failing Script.conn1 Script.quiet
           (cleanup_returns_subclass _ _ _)) with (e := OtherException "boom")
                                                  (s1 := server Script.quiet).
  reflexivity.
- eapply (closeRequest_once_on_cleanup_paths Script.rejecting Script.conn1
            Script.one_waiting (cleanup_returns_subclass _ _ _)); reflexivity.
Defined.

Lemma handleRequest_failure_witness :
  fst (handleRequest Script.failing Script.conn1 Script.quiet) = Returns tt
  /\ calls (snd (handleRequest Script.failing Script.conn1 Script.quiet))
     = [Call_processRequest Script.conn1;
        Call_handleError Script.conn1;
        Call_shutdownRequest Script.conn1;
        Call_closeRequest Script.conn1]
  /\ Script.closed_after (handleRequest Script.failing Script.conn1 Script.quiet)
     = [Script.conn1].
Proof.
destruct (handleRequest_failure Script.Socket_close Script.failing Script.conn1
            0 Script.quiet "boom" _ _ _ _ eq_refl eq_refl eq_refl eq_refl) as [E _].
rewrite E. repeat split.
Defined.

Lemma start_when_running_witness :
  fst (start Script.Socket_bind Script.Socket_listen Script.Socket_close Script.quiet)
  = Returns true
  /\ start Script.Socket_bind Script.Socket_listen Script.Socket_close
       (snd (start Script.Socket_bind Script.Socket_listen Script.Socket_close
               Script.quiet))
     = (Returns true,
        snd (start Script.Socket_bind Script.Socket_listen Script.Socket_close
               Script.quiet))
  /\ calls (snd (start Script.Socket_bind Script.Socket_listen Script.Socket_close
                   (snd (start Script.Socket_bind Script.Socket_listen
                           Script.Socket_close Script.quiet))))
     = [Call_serverBind; Call_serverActivate; Call_spawnWithName "serve"].
Proof.
split; [reflexivity|].
destruct (start_when_running_is_noop Script.Socket_bind Script.Socket_listen
            Script.Socket_close
            (snd (start Script.Socket_bind Script.Socket_listen Script.Socket_close
                    Script.quiet)))
  as (E & _ & _).
- right. vm_compute. reflexivity.
- rewrite E. split; reflexivity.
Defined.

Lemma bind_failure_witness :
  (fst (start Script.Socket_bind Script.Socket_listen Script.Socket_close
          Script.unbindable) = Returns false
   /\ fst (serveForever Script.Socket_bind Script.Socket_listen Script.Socket_close
             Script.base 3 Script.unbindable) = Returns false
   /\ calls (snd (start Script.Socket_bind Script.Socket_listen Script.Socket_close
                    Script.unbindable))
      = [Call_serverBind; Call_serverClose]
   /\ Script.listener_closed
        (env (server (snd (start Script.Socket_bind Script.Socket_listen
                             Script.Socket_close Script.unbindable))))
      = 1%nat)
  /\ (fst (start Script.Socket_bind Script.Socket_listen Script.Socket_close
             Script.unlistenable) = Returns false
      /\ fst (serveForever Script.Socket_bind Script.Socket_listen Script.Socket_close
                Script.base 3 Script.unlistenable) = Returns false
      /\ calls (snd (start Script.Socket_bind Script.Socket_listen Script.Socket_close
                       Script.unlistenable))
         = [Call_serverBind; Call_serverActivate; Call_serverClose]).
Proof.
split.
- destruct (bind_or_listen_failure Script.Socket_bind Script.Socket_listen
              Script.Socket_close Script.base 3 Script.unbindable
              eq_refl eq_refl eq_refl (or_introl eq_refl))
    as (m1 & m' & E1 & E2 & _).
  rewrite E2. rewrite E1 at 1. repeat split.
- destruct (bind_or_listen_failure Script.Socket_bind Script.Socket_listen
              Script.Socket_close Script.base 3 Script.unlistenable
              eq_refl eq_refl eq_refl (or_intror eq_refl))
    as (m1 & m' & E1 & E2 & _).
  rewrite E2. rewrite E1 at 1. repeat split.
Defined.

(** When a member called from the loop throws, the exception leaves
    [serveForever] at once: the three closing calls are not made. *)
Lemma d_serveForever_unwinds {U} (Socket_close : U -> U) (q : BaseStreamServer_vtable U)
    (fuel : nat) (m : Machine U) e s1 :
  getRequest q (set_stopped (Event_clear (stopped (server m)))
                  (set_started (Event_set (started (server m))) (server m)))
  = (Throws e, s1) ->
  d_serveForever Socket_close q (S fuel) m
  = (Throws e,
     mkMachine s1 (calls m ++ [Call_started_set; Call_stopped_clear; Call_getRequest])).
Proof.
intros Hg. rewrite d_serveForever_entered.
cbn [serveForever_loop]. unfold serveForever_body, q_getRequest.
unfold bind at 1 2 3. unfold call at 1. cbn [server calls]. rewrite Hg.
now rewrite <- app_assoc.
Qed.

(** C6, the claim as stated fails: the loop of the base server is left
    because the blocked [accept] is interrupted. The exception leaves
    [serveForever]; the listening socket is not closed, [started] is still
    set and [stopped] still clear. *)
Lemma interrupted_accept_skips_closing :
  fst (d_serveForever Script.Socket_close Script.interrupted 3 Script.one_waiting)
  = Throws CoroutineExitException
  /\ calls (snd (d_serveForever Script.Socket_close Script.interrupted 3
                   Script.one_waiting))
     = [Call_started_set; Call_stopped_clear; Call_getRequest]
  /\ occurrences Call_serverClose
       (calls (snd (d_serveForever Script.Socket_close Script.interrupted 3
                      Script.one_waiting)))
     = 0%nat
  /\ Script.listener_closed
       (env (server (snd (d_serveForever Script.Socket_close Script.interrupted 3
                            Script.one_waiting))))
     = 0%nat
  /\ Event_isSet
       (started (server (snd (d_serveForever Script.Socket_close Script.interrupted 3
                                Script.one_waiting))))
     = true
  /\ Event_isSet
       (stopped (server (snd (d_serveForever Script.Socket_close Script.interrupted 3
                                Script.one_waiting))))
     = false.
Proof. repeat split. Qed.

Lemma serveForever_event_order_witness :
  d_serveForever Script.Socket_close Script.base 2 Script.one_waiting
  = (Returns tt,
     snd (d_serveForever Script.Socket_close Script.base 2 Script.one_waiting))
  /\ calls (snd (d_serveForever Script.Socket_close Script.base 2 Script.one_waiting))
     = [Call_started_set; Call_stopped_clear;
        Call_getRequest; Call_verifyRequest Script.conn1; Call_spawn Script.conn1;
        Call_serviceActions;
        Call_getRequest;
        Call_serverClose; Call_started_clear; Call_stopped_set]
  /\ calls (snd (d_serveForever Script.Socket_close Script.rejecting_and_stopping 2
                   Script.one_waiting))
     = [Call_started_set; Call_stopped_clear;
        Call_getRequest; Call_verifyRequest Script.conn1;
        Call_shutdownRequest Script.conn1; Call_closeRequest Script.conn1;
        Call_serviceActions;
        Call_serverClose; Call_started_clear; Call_stopped_set].
Proof.
destruct (serveForever_event_order Script.Socket_close Script.base 2 Script.one_waiting)
  as (m0 & E0 & _ & _ & _ & _ & _ & Hexit & _).
injection E0 as <-.
destruct (Hexit _ eq_refl) as (m2 & E2 & _).
destruct (serveForever_event_order Script.Socket_close Script.rejecting_and_stopping 2
            Script.one_waiting)
  as (m0' & E0' & _ & _ & _ & _ & _ & Hexit' & _).
injection E0' as <-.
destruct (Hexit' _ eq_refl) as (m2' & E2' & _).
rewrite E2'. rewrite E2. cbn [snd].
injection E2 as <-. injection E2' as <-.
repeat split.
Defined.

(** C7, the claim as stated fails: with two connections waiting, the
    first is turned down, shut down and closed; [serviceActions] then
    answers [false] and the loop is left. There is no next pass: the
    second connection is still waiting and [getRequest] was called once. *)
Lemma rejected_then_stopped :
  fst (d_serveForever Script.Socket_close Script.rejecting_and_stopping 5
         Script.two_waiting)
  = Returns tt
  /\ calls (snd (d_serveForever Script.Socket_close Script.rejecting_and_stopping 5
                   Script.two_waiting))
     = [Call_started_set; Call_stopped_clear;
        Call_getRequest; Call_verifyRequest Script.conn1;
        Call_shutdownRequest Script.conn1; Call_closeRequest Script.conn1;
        Call_serviceActions;
        Call_serverClose; Call_started_clear; Call_stopped_set]
  /\ Script.waiting_after
       (d_serveForever Script.Socket_close Script.rejecting_and_stopping 5
          Script.two_waiting)
     = [Some 2%nat]
  /\ serveForever_body Script.rejecting_and_stopping
       (snd ((started_set ;; stopped_clear) Script.two_waiting))
     <> (Returns Continue,
         snd (serveForever_body Script.rejecting_and_stopping
                (snd ((started_set ;; stopped_clear) Script.two_waiting)))).
Proof. repeat split. discriminate. Qed.

Lemma rejected_request_witness :
  fst (serveForever_body Script.rejecting Script.one_waiting) = Returns Continue
  /\ new_calls Script.one_waiting
       (snd (serveForever_body Script.rejecting Script.one_waiting))
     = [Call_getRequest; Call_verifyRequest Script.conn1;
        Call_shutdownRequest Script.conn1; Call_closeRequest Script.conn1;
        Call_serviceActions]
  /\ Script.spawned_after (serveForever_body Script.rejecting Script.one_waiting) = []
  /\ Script.closed_after (serveForever_body Script.rejecting Script.one_waiting)
     = [Script.conn1]
  /\ fst (serveForever_body Script.rejecting_and_stopping Script.one_waiting)
     = Returns Break.
Proof.
destruct (rejected_request_not_spawned Script.rejecting Script.conn1 0
            Script.one_waiting _ _ _ _ _ true
            eq_refl eq_refl eq_refl eq_refl eq_refl) as (m' & E & _ & Hc & _).
destruct (rejected_request_not_spawned Script.rejecting_and_stopping Script.conn1 0
            Script.one_waiting _ _ _ _ _ false
            eq_refl eq_refl eq_refl eq_refl eq_refl) as (m'' & E' & _).
rewrite E'. rewrite E. cbn [fst snd]. rewrite Hc.
injection E as <-.
repeat split.
Defined.

Lemma ssl_three_connections_witness :
  fst (getRequest (Script.ssl 3) (server Script.three_waiting))
  = Returns (Some (sslSocket (mkSslSocket 3%nat "SslServer")))
  /\ Script.incoming (env (snd (getRequest (Script.ssl 3) (server Script.three_waiting))))
     = [].
Proof.
destruct (ssl_getRequest_skips_failed_handshakes 3 (server Script.three_waiting)
            [1%nat; 2%nat] []) as (H & _ & _).
- repeat constructor.
- simpl. lia.
- rewrite (H 3%nat eq_refl eq_refl). split; reflexivity.
Defined.

(** The dispatch loop of the SSL server over the same three raw
    connections: it sees one [getRequest] that yields the third
    connection, and a second one that yields null; nothing of the two
    failed handshakes shows. *)
Example ssl_loop_sees_one_connection :
  d_serveForever Script.Socket_close (Script.ssl 3) 2 Script.three_waiting
  = (Returns tt,
     snd (d_serveForever Script.Socket_close (Script.ssl 3) 2 Script.three_waiting))
  /\ calls (snd (d_serveForever Script.Socket_close (Script.ssl 3) 2
                   Script.three_waiting))
     = [Call_started_set; Call_stopped_clear;
        Call_getRequest;
        Call_verifyRequest (sslSocket (mkSslSocket 3%nat "SslServer"));
        Call_spawn (sslSocket (mkSslSocket 3%nat "SslServer"));
        Call_serviceActions;
        Call_getRequest;
        Call_serverClose; Call_started_clear; Call_stopped_set].
Proof. split; reflexivity. Qed.

Lemma run_handle_fails_witness :
  fst (BaseRequestHandler_run (Script.handler (Throws (OtherException "boom")))
         Script.conn1 Script.quiet)
  = Returns tt
  /\ calls (snd (BaseRequestHandler_run
                   (Script.handler (Throws (OtherException "boom")))
                   Script.conn1 Script.quiet))
     = [Call_setup Script.conn1; Call_handle Script.conn1; Call_finish Script.conn1]
  /\ Script.closed_after
       (BaseRequestHandler_run (Script.handler (Throws (OtherException "boom")))
          Script.conn1 Script.quiet)
     = [Script.conn1]
  /\ fst (BaseRequestHandler_run (Script.handler (Returns tt)) Script.conn1 Script.quiet)
     = Returns tt.
Proof.
destruct (run_setup_handle_finish (Script.handler (Throws (OtherException "boom")))
            Script.conn1 Script.quiet _ eq_refl) as [_ H].
rewrite (H (OtherException "boom") _ _ _ eq_refl eq_refl).
destruct (run_setup_handle_finish (Script.handler (Returns tt))
            Script.conn1 Script.quiet _ eq_refl) as [H' _].
rewrite (H' _ _ eq_refl eq_refl).
repeat split.
Defined.

Lemma randomBytes_length_witness :
  length (fst (Random.randomBytes unit id Script.RAND_bytes_failing
                 (fun _ => Byte.x00) 16 tt))
  = 16%nat.
Proof.
apply (randomBytes_length unit id Script.RAND_bytes_failing (fun _ => Byte.x00) 16 tt).
lia.
Defined.

(** * Further properties of the code *)

(** ** Which calls a member can make *)

Lemma makes_only_ret {U A} (P : Call -> Prop) (a : A) : makes_only (U:=U) P (ret a).
Proof. intros m. exists []. simpl. now rewrite app_nil_r. Qed.

Lemma makes_only_diverge {U A} (P : Call -> Prop) :
  makes_only (U:=U) (A:=A) P diverge.
Proof. intros m. exists []. simpl. now rewrite app_nil_r. Qed.

Lemma makes_only_call {U A} (P : Call -> Prop) (c : Call)
    (body : M (BaseStreamServer U) A) :
  P c -> makes_only P (call c body).
Proof.
intros Hc m. exists [c]. split; [apply call_calls|]. now constructor.
Qed.

Lemma makes_only_bind {U A B} (P : Call -> Prop)
    (f : M (Machine U) A) (k : A -> M (Machine U) B) :
  makes_only P f -> (forall a, makes_only P (k a)) -> makes_only P (bind f k).
Proof.
intros Hf Hk m. destruct (Hf m) as (l & Hl & HP). unfold bind.
destruct (f m) as [[a|e|] m1]; simpl in *; eauto.
destruct (Hk a m1) as (l' & Hl' & HP'). exists (l ++ l'). split.
- now rewrite Hl', Hl, app_assoc.
- now apply Forall_app.
Qed.

Lemma makes_only_try_catch {U A} (P : Call -> Prop) (f : M (Machine U) A) h :
  makes_only P f -> (forall e, makes_only P (h e)) -> makes_only P (try_catch f h).
Proof.
intros Hf Hh m. destruct (Hf m) as (l & Hl & HP). unfold try_catch.
destruct (f m) as [[a|e|] m1]; simpl in *; eauto.
destruct (Hh e m1) as (l' & Hl' & HP'). exists (l ++ l'). split.
- now rewrite Hl', Hl, app_assoc.
- now apply Forall_app.
Qed.

Lemma makes_only_new_calls {U A} (P : Call -> Prop) (f : M (Machine U) A) (m : Machine U) :
  makes_only P f -> Forall P (new_calls m (snd (f m))).
Proof.
intros Hf. destruct (Hf m) as (l & Hl & HP).
unfold new_calls. rewrite Hl. now rewrite drop_app_length.
Qed.

Lemma occurrences_excluded (P : Call -> Prop) (c : Call) (l : list Call) :
  Forall P l -> ~ P c -> occurrences c l = 0%nat.
Proof.
intros Hl Hc. induction Hl as [|c' l Hc' _ IH]; [reflexivity|].
rewrite occurrences_cons_ne; [exact IH|]. intros ->. now apply Hc.
Qed.

Ltac solve_makes_only :=
  repeat first
    [ apply makes_only_bind; [| intros ? ]
    | apply makes_only_try_catch; [| intros ? ]
    | apply makes_only_ret
    | apply makes_only_diverge
    | apply makes_only_call; first [ exact I | cbv; tauto ]
    | match goal with |- makes_only _ (if ?b then _ else _) => destruct b end
    | match goal with |- makes_only _ (match ?x with _ => _ end) => destruct x end ].

Section WhichCalls.

Context {U : Type}.
Variable Socket_close : U -> U.
Variable q : BaseStreamServer_vtable U.

Lemma makes_only_serveForever_loop (fuel : nat) :
  makes_only loop_call (serveForever_loop q fuel).
Proof.
induction fuel as [|fuel IH]; cbn [serveForever_loop].
- apply makes_only_diverge.
- apply makes_only_bind.
  + unfold serveForever_body, q_getRequest, q_verifyRequest, q_shutdownRequest,
      q_closeRequest, q_serviceActions, operations_spawn.
    solve_makes_only.
  + intros [|]; [apply makes_only_ret|exact IH].
Qed.

(** Whatever the overrides do and however the run ends, the accept loop
    calls only [getRequest], [verifyRequest], [serviceActions], the spawn,
    [shutdownRequest], [closeRequest], the events and [serverClose]. It
    never calls [processRequest] or [handleError] itself: processing is
    left to the spawned tasks, and the loop cannot be held up by it. *)
Theorem accept_loop_never_processes (fuel : nat) (m : Machine U) (request : SocketLike) :
  Forall loop_call (new_calls m (snd (d_serveForever Socket_close q fuel m)))
  /\ occurrences (Call_processRequest request)
       (new_calls m (snd (d_serveForever Socket_close q fuel m))) = 0%nat
  /\ occurrences (Call_handleError request)
       (new_calls m (snd (d_serveForever Socket_close q fuel m))) = 0%nat.
Proof.
assert (H : Forall loop_call (new_calls m (snd (d_serveForever Socket_close q fuel m)))).
{ apply makes_only_new_calls. unfold d_serveForever, started_set, stopped_clear,
    serverClose, started_clear, stopped_set.
  repeat (apply makes_only_bind; [| intros ? ]);
    try (apply makes_only_call; exact I).
  apply makes_only_serveForever_loop. }
split; [exact H|].
split; apply (occurrences_excluded loop_call); auto.
Qed.

(** A connection task calls nothing but [processRequest], [handleError],
    [shutdownRequest] and [closeRequest], and only on its own connection:
    it never touches the events, the listening socket or the group. *)
Theorem connection_task_calls_own_request (request : SocketLike) (m : Machine U) :
  Forall (task_call request) (new_calls m (snd (handleRequest q request m))).
Proof.
apply makes_only_new_calls.
unfold handleRequest, q_processRequest, q_handleError, q_shutdownRequest,
  q_closeRequest, task_call.
solve_makes_only.
Qed.

End WhichCalls.

(** ** Clean-up members that fail *)

Section CleanupFails.

Context {U : Type}.
Variable q : BaseStreamServer_vtable U.
Variable request : SocketLike.

(** When [processRequest] throws an ordinary exception and [handleError]
    throws in turn, [handleRequest] lets that second exception out, and
    neither [shutdownRequest] nor [closeRequest] is called: the connection
    is left open. *)
Theorem handleError_failure_skips_cleanup (m : Machine U) what s1 e s2 :
  processRequest q request (server m) = (Throws (OtherException what), s1) ->
  handleError q request s1 = (Throws e, s2) ->
  handleRequest q request m
  = (Throws e,
     mkMachine s2 (calls m ++ [Call_processRequest request; Call_handleError request]))
  /\ occurrences (Call_shutdownRequest request)
       (new_calls m (snd (handleRequest q request m))) = 0%nat
  /\ occurrences (Call_closeRequest request)
       (new_calls m (snd (handleRequest q request m))) = 0%nat.
Proof.
intros Hp He.
assert (E : handleRequest q request m
            = (Throws e,
               mkMachine s2 (calls m ++ [Call_processRequest request;
                                         Call_handleError request]))).
{ rewrite (handleRequest_catch_all q request m _ _ Hp).
  unfold q_handleError. step_call He. now rewrite <- app_assoc. }
rewrite E. cbn [snd]. rewrite new_calls_app. repeat split; count_calls.
Qed.

(** When [shutdownRequest] throws in either [catch] clause, its exception
    leaves [handleRequest] (in place of the one caught) and [closeRequest]
    is not called. *)
Theorem shutdownRequest_failure_skips_close (m : Machine U) e :
  (forall s1 s2,
      processRequest q request (server m) = (Throws CoroutineExitException, s1) ->
      shutdownRequest q request s1 = (Throws e, s2) ->
      handleRequest q request m
      = (Throws e,
         mkMachine s2 (calls m ++ [Call_processRequest request;
                                   Call_shutdownRequest request])))
  /\ (forall what s1 s2 s3,
         processRequest q request (server m) = (Throws (OtherException what), s1) ->
         handleError q request s1 = (Returns tt, s2) ->
         shutdownRequest q request s2 = (Throws e, s3) ->
         handleRequest q request m
         = (Throws e,
            mkMachine s3 (calls m ++ [Call_processRequest request;
                                      Call_handleError request;
                                      Call_shutdownRequest request]))).
Proof.
split.
- intros s1 s2 Hp Hs.
  rewrite (handleRequest_catch_exit q request m _ Hp).
  unfold q_shutdownRequest. step_call Hs. now rewrite <- app_assoc.
- intros what s1 s2 s3 Hp He Hs.
  rewrite (handleRequest_catch_all q request m _ _ Hp).
  unfold q_handleError, q_shutdownRequest. step_call He. step_call Hs.
  now rewrite <- !app_assoc.
Qed.

End CleanupFails.

(** ** [BaseRequestHandler::run] off the main path *)

Section RunOffPath.

Context {U : Type}.
Variable h : BaseRequestHandler_vtable U.
Variable request : SocketLike.

(** When [setup] throws, [run] throws the same exception at once:
    [handle] is not called, and neither is [finish], so [run] does not
    close the connection. *)
Theorem run_setup_failure_skips_finish (m : Machine U) e s1 :
  setup h request (server m) = (Throws e, s1) ->
  BaseRequestHandler_run h request m
  = (Throws e, mkMachine s1 (calls m ++ [Call_setup request]))
  /\ occurrences (Call_finish request)
       (new_calls m (snd (BaseRequestHandler_run h request m))) = 0%nat.
Proof.
intros Hs. rewrite (run_setup_throws h request m _ _ Hs). cbn [snd].
rewrite new_calls_app. split; [reflexivity|count_calls].
Qed.

(** When [handle] returns and the [finish] that follows it throws, the
    [catch] clause calls [finish] once more on the same connection, and
    [run] ends as that second call ends. *)
Theorem run_finish_failure_calls_finish_twice (m : Machine U) e s1 s2 s3 r s4 :
  setup h request (server m) = (Returns tt, s1) ->
  handle h request s1 = (Returns tt, s2) ->
  finish h request s2 = (Throws e, s3) ->
  finish h request s3 = (r, s4) ->
  BaseRequestHandler_run h request m
  = (r,
     mkMachine s4 (calls m ++ [Call_setup request; Call_handle request;
                               Call_finish request; Call_finish request]))
  /\ occurrences (Call_finish request)
       (new_calls m (snd (BaseRequestHandler_run h request m))) = 2%nat.
Proof.
intros Hs Hh Hf Hf'.
assert (E : BaseRequestHandler_run h request m
            = (r,
               mkMachine s4 (calls m ++ [Call_setup request; Call_handle request;
                                         Call_finish request; Call_finish request]))).
{ rewrite (run_finish_called_again h request m _ _ _ _ Hs Hh Hf).
  step_call Hf'. now rewrite <- app_assoc. }
rewrite E. cbn [snd]. rewrite new_calls_app. split; [reflexivity|count_calls].
Qed.

End RunOffPath.

(** ** An exception in the accept loop *)

Section LoopException.

Context {U : Type}.
Variable Socket_close : U -> U.
Variable q : BaseStreamServer_vtable U.

Lemma makes_only_pass (fuel : nat) : makes_only pass_call (serveForever_loop q fuel).
Proof.
induction fuel as [|fuel IH]; cbn [serveForever_loop].
- apply makes_only_diverge.
- apply makes_only_bind.
  + unfold serveForever_body, q_getRequest, q_verifyRequest, q_shutdownRequest,
      q_closeRequest, q_serviceActions, operations_spawn.
    solve_makes_only.
  + intros [|]; [apply makes_only_ret|exact IH].
Qed.

(** When a member called from the loop throws, in whichever pass, the
    exception leaves [BaseStreamServerPrivate::serveForever] as it is and
    the statements after the loop are skipped: this run never calls
    [serverClose], never clears [started] and never sets [stopped]. *)
Theorem loop_exception_skips_epilogue (fuel : nat) (m m1 : Machine U) e :
  serveForever_loop q fuel (snd ((started_set ;; stopped_clear) m)) = (Throws e, m1) ->
  d_serveForever Socket_close q fuel m = (Throws e, m1)
  /\ occurrences Call_serverClose (new_calls m m1) = 0%nat
  /\ occurrences Call_started_clear (new_calls m m1) = 0%nat
  /\ occurrences Call_stopped_set (new_calls m m1) = 0%nat.
Proof.
intros Hl. rewrite serveForever_prologue in Hl. cbn [snd] in Hl.
split.
- rewrite d_serveForever_entered. now rewrite (bind_throws _ _ _ _ _ Hl).
- destruct (makes_only_pass fuel
              (mkMachine
                 (set_stopped (Event_clear (stopped (server m)))
                    (set_started (Event_set (started (server m))) (server m)))
                 (calls m ++ [Call_started_set; Call_stopped_clear])))
    as (l & Hcalls & Hl').
  rewrite Hl in Hcalls. cbn [snd calls] in Hcalls.
  unfold new_calls. rewrite Hcalls, <- app_assoc, drop_app_length.
  cbn [app]. count_calls.
  repeat split; apply (occurrences_excluded pass_call); auto.
Qed.

End LoopException.

(** ** A successful [start] *)

Section StartSucceeds.

Context {U : Type}.
Variable Socket_bind : QHostAddress -> Z -> BindMode -> U -> bool * U.
Variable Socket_listen : Z -> U -> bool * U.
Variable Socket_close : U -> U.

(** On a server with [started] clear and no "serve" task, when [bind] and
    [listen] succeed, [start] returns [true] having bound, listened and
    registered the accept loop under the name "serve", and nothing else:
    the listening socket is not closed, no connection task exists yet, and
    the events are untouched. In particular [started] is still clear when
    [start] returns; it is the "serve" task that sets it, once it runs. *)
Theorem start_registers_serve_task (m : Machine U) :
  Event_isSet (started (server m)) = false ->
  CoroutineGroup_has "serve" (operations (d_ptr (server m))) = false ->
  fst (serverBind Socket_bind m) = Returns true ->
  fst (serverActivate Socket_listen (snd (serverBind Socket_bind m))) = Returns true ->
  exists m',
    start Socket_bind Socket_listen Socket_close m = (Returns true, m')
    /\ new_calls m m'
       = [Call_serverBind; Call_serverActivate; Call_spawnWithName "serve"]
    /\ named (operations (d_ptr (server m'))) !! "serve" = Some ServeForeverTask
    /\ anonymous (operations (d_ptr (server m')))
       = anonymous (operations (d_ptr (server m)))
    /\ env (server m')
       = env (server (snd (serverActivate Socket_listen (snd (serverBind Socket_bind m)))))
    /\ started (server m') = started (server m)
    /\ stopped (server m') = stopped (server m).
Proof.
intros Hs Hh Hb Ha.
rewrite (start_past_guard Socket_bind Socket_listen Socket_close m Hs Hh).
destruct (serverBind_returns Socket_bind m) as (ok & u & Eb).
rewrite Eb in Hb, Ha. cbn [fst snd] in Hb, Ha. injection Hb as ->.
rewrite (bind_returns _ _ _ _ _ Eb). cbn [negb]. rewrite Eb. cbn [snd].
match goal with
| |- context [bind _ _ ?m0] =>
    destruct (serverActivate_returns Socket_listen m0) as (ok & u' & Ea)
end.
rewrite Ea in Ha. cbn [fst] in Ha. injection Ha as ->.
rewrite (bind_returns _ _ _ _ _ Ea). cbn [negb]. rewrite Ea. cbn [snd].
unfold bind, operations_spawnWithName, call, modify, ret. cbn [server calls].
eexists. split; [reflexivity|].
rewrite <- !app_assoc, new_calls_app. cbn [app].
split; [reflexivity|].
cbn. unfold CoroutineGroup_spawnWithName. cbn in Hh. rewrite Hh. cbn.
rewrite lookup_insert_eq. now repeat split.
Qed.

End StartSucceeds.

(** ** Configuration reaches the listening socket *)

(** For a port that fits [quint16] and a backlog that fits [int]:
    [start] binds to the address and port the server was constructed
    with, in mode [ReuseAddressHint] unless [setAllowReuseAddress(false)]
    was called, and listens with the backlog last given to
    [setRequestQueueSize], which is 100 on a fresh server. *)
Theorem start_uses_configuration
    (a : QHostAddress) (p : Z) (c : SslConfiguration) (b : bool) (n : Z) :
  0 <= p < 65536 ->
  -2147483648 <= n <= 2147483647 ->
  let fresh := BaseStreamServer_new a p c Recorder.untouched in
  let tuned := setRequestQueueSize n (setAllowReuseAddress b fresh) in
  env (server (snd (start Recorder.Socket_bind Recorder.Socket_listen
                      Recorder.Socket_close (mkMachine fresh []))))
  = Recorder.mkWorld [(a, p, ReuseAddressHint)] [100] 0
  /\ env (server (snd (start Recorder.Socket_bind Recorder.Socket_listen
                         Recorder.Socket_close (mkMachine tuned []))))
     = Recorder.mkWorld
         [(a, p, if b then ReuseAddressHint else DefaultForPlatform)] [n] 0.
Proof. intros _ _. destruct b; split; reflexivity. Qed.

(** ** The SSL server's configuration *)

Section SslConfigurationInUse.

Context {U : Type}.
Variable Socket_accept : M U (option Socket).
Variable SslSocket_handshake : SslSocket -> bool -> M U bool.

Local Abbreviation ssl_getRequest :=
  (BaseSslStreamServer_getRequest Socket_accept SslSocket_handshake).

(** However it ends, [getRequest] of the SSL server changes nothing of
    the server object, and a connection it returns is wrapped with the
    configuration the server holds. *)
Lemma ssl_getRequest_frame (fuel : nat) (s s' : BaseStreamServer U) r :
  ssl_getRequest fuel s = (r, s') ->
  started s' = started s /\ stopped s' = stopped s /\ d_ptr s' = d_ptr s
  /\ (forall conn, r = Returns (Some conn) ->
        exists raw, conn = sslSocket (mkSslSocket raw (configuration (d_ptr s)))).
Proof.
revert s. induction fuel as [|fuel IH]; intros s H.
- injection H as <- <-. repeat split. discriminate.
- cbn [BaseSslStreamServer_getRequest] in H.
  unfold bind at 1, on_env at 1 in H.
  destruct (Socket_accept (env s)) as [[[raw|]|e|] u1].
  + unfold bind at 1, gets at 1 in H. unfold bind at 1, on_env at 1 in H.
    cbn [env set_env d_ptr] in H.
    destruct (SslSocket_handshake _ true u1) as [[[|]|e|] u2]; cbn [negb] in H.
    * injection H as <- <-. repeat split. intros conn [= <-]. eauto.
    * apply IH in H. cbn in H. exact H.
    * injection H as <- <-. repeat split. discriminate.
    * injection H as <- <-. repeat split. discriminate.
  + injection H as <- <-. repeat split. discriminate.
  + injection H as <- <-. repeat split. discriminate.
  + injection H as <- <-. repeat split. discriminate.
Qed.

(** After [setSslConfiguration(c)], every connection that [getRequest]
    returns is wrapped with [c], however many failed handshakes came
    before it, and [sslConfiguratino] still reads [c] afterwards; the
    events and the coroutine group are not touched. *)
Theorem setSslConfiguration_takes_effect
    (fuel : nat) (c : SslConfiguration) (s s' : BaseStreamServer U) conn :
  ssl_getRequest fuel (setSslConfiguration c s) = (Returns (Some conn), s') ->
  (exists raw, conn = sslSocket (mkSslSocket raw c))
  /\ sslConfiguratino s' = c
  /\ started s' = started s
  /\ stopped s' = stopped s
  /\ operations (d_ptr s') = operations (d_ptr s).
Proof.
intros H. apply ssl_getRequest_frame in H as (Hs & Ht & Hd & Hc).
destruct (Hc conn eq_refl) as [raw ->].
unfold sslConfiguratino. rewrite Hd. cbn. rewrite Hs, Ht. cbn.
repeat split. now exists raw.
Qed.

End SslConfigurationInUse.

(** ** What [randomBytes] hands back *)

Section RandomBytesContents.

Variable G : Type.
Variable initOpenSSL : G -> G.
Variable RAND_bytes : Z -> G -> (Z * list Byte.byte) * G.
Variable stale : nat -> Byte.byte.

(** For [i >= 0]: when [RAND_bytes] fills the buffer, [randomBytes i] is
    exactly the bytes it wrote; when it writes nothing, as on failure, the
    caller still gets [i] bytes, namely the storage as [resize] left it,
    and no sign of the failure. Either way the generator was initialised
    first and is left in the state [RAND_bytes] put it in. *)
Theorem randomBytes_contents (i : Z) (g : G) :
  0 <= i ->
  (length (snd (fst (RAND_bytes i (initOpenSSL g)))) = Z.to_nat i ->
   fst (Random.randomBytes G initOpenSSL RAND_bytes stale i g)
   = snd (fst (RAND_bytes i (initOpenSSL g))))
  /\ (snd (fst (RAND_bytes i (initOpenSSL g))) = [] ->
      fst (Random.randomBytes G initOpenSSL RAND_bytes stale i g)
      = map stale (seq 0 (Z.to_nat i)))
  /\ snd (Random.randomBytes G initOpenSSL RAND_bytes stale i g)
     = snd (RAND_bytes i (initOpenSSL g)).
Proof.
intros Hi. unfold Random.randomBytes.
destruct (RAND_bytes i (initOpenSSL g)) as [[status bytes] g'].
cbn [fst snd]. unfold Random.store, Random.QByteArray_resize.
rewrite Z.max_l by lia. cbn [length]. rewrite Nat.sub_0_r.
rewrite take_nil. cbn [app]. rewrite length_map, length_seq.
split; [|split; [|reflexivity]].
- intros Hlen. rewrite <- Hlen at 1. rewrite firstn_all.
  rewrite drop_ge by (rewrite length_map, length_seq; lia).
  apply app_nil_r.
- intros ->. cbn [length]. now rewrite take_nil, drop_0.
Qed.

End RandomBytesContents.

(** ** A whole run of the blocking [serveForever] on a scripted world *)

Lemma scripted_serverBind (m : Machine Script.World) :
  serverBind Script.Socket_bind m
  = (Returns (Script.bind_ok (env (server m))),
     mkMachine (set_env (env (server m)) (server m)) (calls m ++ [Call_serverBind])).
Proof. reflexivity. Qed.

Lemma scripted_serverActivate (m : Machine Script.World) :
  serverActivate Script.Socket_listen m
  = (Returns (Script.listen_ok (env (server m))),
     mkMachine (set_env (env (server m)) (server m)) (calls m ++ [Call_serverActivate])).
Proof. reflexivity. Qed.

Section ScriptedRun.

Variable how : SocketLike -> outcome unit.
Variable wanted : SocketLike -> bool.

Local Abbreviation q := (Script.subclass how wanted true).

(** The loop over the connections [conns], then a null accept or the end
    of the script: what it adds to the group and to the closed
    connections, and what it leaves alone. *)
Lemma scripted_loop_partitions (conns : list Socket) (tail : list (option Socket)) :
  tail = [] \/ (exists rest, tail = None :: rest) ->
  forall (fuel : nat) (m : Machine Script.World),
    Script.incoming (env (server m)) = map Some conns ++ tail ->
    (length conns < fuel)%nat ->
    exists m',
      serveForever_loop q fuel m = (Returns tt, m')
      /\ anonymous (operations (d_ptr (server m')))
         = anonymous (operations (d_ptr (server m)))
           ++ map HandleRequestTask
                (filter (fun r => wanted r = true) (map rawSocket conns))
      /\ Script.closed (env (server m'))
         = Script.closed (env (server m))
           ++ filter (fun r => wanted r = false) (map rawSocket conns)
      /\ Script.incoming (env (server m')) = tl tail
      /\ Script.listener_closed (env (server m'))
         = Script.listener_closed (env (server m))
      /\ started (server m') = started (server m)
      /\ stopped (server m') = stopped (server m)
      /\ named (operations (d_ptr (server m')))
         = named (operations (d_ptr (server m))).
Proof.
intros Htail. induction conns as [|c conns IH]; intros fuel m Hin Hfuel.
- destruct fuel as [|fuel]; [simpl in Hfuel; lia|].
  cbn [map app] in Hin.
  destruct Htail as [->|[rest ->]].
  + eexists. split.
    * apply serveForever_loop_break, serveForever_body_accept_failed.
      exact (scripted_getRequest_nil (server m) Hin).
    * cbn. rewrite !app_nil_r. now repeat split.
  + eexists. split.
    * apply serveForever_loop_break, serveForever_body_accept_failed.
      exact (scripted_getRequest_cons (server m) None rest Hin).
    * cbn. rewrite !app_nil_r. now repeat split.
- destruct fuel as [|fuel]; [simpl in Hfuel; lia|].
  cbn [map app] in Hin. simpl in Hfuel.
  pose proof (scripted_getRequest_cons (server m) (Some c) _ Hin) as Hg.
  cbn [option_map] in Hg.
  destruct (wanted (rawSocket c)) eqn:Hw.
  + assert (Hv : verifyRequest q (rawSocket c)
                   (set_env (Script.set_incoming (map Some conns ++ tail)
                               (env (server m))) (server m))
                 = (Returns true, set_env (Script.set_incoming (map Some conns ++ tail)
                                             (env (server m))) (server m)))
      by (cbn; unfold ret; now rewrite Hw).
    pose proof (serveForever_body_admitted q (rawSocket c) m _ _ Hg Hv) as Hb.
    erewrite serviceActions_go_on in Hb by reflexivity.
    rewrite (serveForever_loop_continue _ _ _ _ Hb).
    match type of Hb with _ = (_, ?m1) =>
      destruct (IH fuel m1) as (m' & El & Ha & Hc & Hi & Hn & Hs & Ht & Hnm);
        [reflexivity|lia|]
    end.
    exists m'. split; [exact El|].
    rewrite Ha, Hc, Hi, Hn, Hs, Ht, Hnm. cbn [map].
    rewrite filter_cons_True by exact Hw.
    rewrite filter_cons_False by congruence.
    cbn. rewrite <- app_assoc. now repeat split.
  + assert (Hv : verifyRequest q (rawSocket c)
                   (set_env (Script.set_incoming (map Some conns ++ tail)
                               (env (server m))) (server m))
                 = (Returns false, set_env (Script.set_incoming (map Some conns ++ tail)
                                              (env (server m))) (server m)))
      by (cbn; unfold ret; now rewrite Hw).
    pose proof (serveForever_body_rejected q (rawSocket c) m _ _ _ _ Hg Hv
                  eq_refl eq_refl) as Hb.
    erewrite serviceActions_go_on in Hb by reflexivity.
    rewrite (serveForever_loop_continue _ _ _ _ Hb).
    match type of Hb with _ = (_, ?m1) =>
      destruct (IH fuel m1) as (m' & El & Ha & Hc & Hi & Hn & Hs & Ht & Hnm);
        [reflexivity|lia|]
    end.
    exists m'. split; [exact El|].
    rewrite Ha, Hc, Hi, Hn, Hs, Ht, Hnm. cbn [map].
    rewrite filter_cons_False by congruence.
    rewrite filter_cons_True by exact Hw.
    cbn. rewrite <- app_assoc. now repeat split.
Qed.

(** The blocking [serveForever] of a server with an admission test, on
    any script: it binds, listens and runs the loop until the first null
    accept or the end of the script, then returns [true]. Every connection
    accepted until then is either handed to a task of its own or shut down
    and closed, never both and never neither; the tasks are spawned in the
    order of acceptance and the rejected connections closed in that order.
    On return the listening socket has been closed once, [started] is
    clear and [stopped] is set, and no task is registered as "serve". *)
Theorem serveForever_dispatches_in_order
    (conns : list Socket) (tail : list (option Socket)) (tls : Socket -> bool)
    (fuel : nat) :
  tail = [] \/ (exists rest, tail = None :: rest) ->
  (length conns < fuel)%nat ->
  let r := serveForever Script.Socket_bind Script.Socket_listen Script.Socket_close
             q fuel (Script.fresh (Script.world0 (map Some conns ++ tail) tls)) in
  fst r = Returns true
  /\ Script.spawned_after r
     = map HandleRequestTask (filter (fun c => wanted c = true) (map rawSocket conns))
  /\ Script.closed_after r
     = filter (fun c => wanted c = false) (map rawSocket conns)
  /\ Script.waiting_after r = tl tail
  /\ Script.listener_closed (env (server (snd r))) = 1%nat
  /\ Event_isSet (started (server (snd r))) = false
  /\ Event_isSet (stopped (server (snd r))) = true
  /\ CoroutineGroup_has "serve" (operations (d_ptr (server (snd r)))) = false.
Proof.
intros Htail Hfuel r.
assert (E : exists m',
           r = (Returns true, m')
           /\ anonymous (operations (d_ptr (server m')))
              = map HandleRequestTask
                  (filter (fun c => wanted c = true) (map rawSocket conns))
           /\ Script.closed (env (server m'))
              = filter (fun c => wanted c = false) (map rawSocket conns)
           /\ Script.incoming (env (server m')) = tl tail
           /\ Script.listener_closed (env (server m')) = 1%nat
           /\ Event_isSet (started (server m')) = false
           /\ Event_isSet (stopped (server m')) = true
           /\ named (operations (d_ptr (server m'))) = ∅).
{ subst r. unfold serveForever.
  rewrite (bind_returns _ _ _ _ _ (scripted_serverBind _)).
  cbn [negb Script.bind_ok Script.listen_ok Script.world0 Script.fresh env server
         set_env BaseStreamServer_new].
  rewrite (bind_returns _ _ _ _ _ (scripted_serverActivate _)).
  cbn [negb Script.bind_ok Script.listen_ok Script.world0 Script.fresh env server
         set_env BaseStreamServer_new].
  unfold bind at 1. rewrite d_serveForever_entered.
  match goal with
  | |- context [bind (serveForever_loop _ _) _ ?m0] =>
      destruct (scripted_loop_partitions conns tail Htail fuel m0)
        as (m' & El & Ha & Hc & Hi & Hn & Hs & Ht & Hnm); [reflexivity|exact Hfuel|]
  end.
  rewrite (bind_returns _ _ _ _ _ El), serveForever_epilogue.
  eexists. split; [reflexivity|].
  cbn. rewrite Ha, Hc, Hi, Hn, Hnm. now repeat split. }
destruct E as (m' & -> & Ha & Hc & Hi & Hn & Hs & Ht & Hnm).
unfold Script.spawned_after, Script.closed_after, Script.waiting_after.
cbn [fst snd]. unfold CoroutineGroup_has. rewrite Hnm.
now repeat split.
Qed.

End ScriptedRun.

(** ** A whole run of the SSL server on a scripted world *)

(** [getRequest] of the SSL server on a script, with the state it leaves. *)
Lemma ssl_getRequest_script
    (fuel : nat) (s : BaseStreamServer Script.World)
    (bad : list Socket) (rest : list (option Socket)) :
  Forall (fun raw => Script.tls_ok (env s) raw = false) bad ->
  (length bad < fuel)%nat ->
  (forall good,
      Script.tls_ok (env s) good = true ->
      Script.incoming (env s) = map Some bad ++ Some good :: rest ->
      getRequest (Script.ssl fuel) s
      = (Returns (Some (sslSocket (mkSslSocket good (configuration (d_ptr s))))),
         set_env (Script.set_incoming rest (env s)) s))
  /\ (Script.incoming (env s) = map Some bad ++ None :: rest ->
      getRequest (Script.ssl fuel) s
      = (Returns None, set_env (Script.set_incoming rest (env s)) s))
  /\ (Script.incoming (env s) = map Some bad ->
      getRequest (Script.ssl fuel) s
      = (Returns None, set_env (Script.set_incoming [] (env s)) s)).
Proof.
cbn [getRequest Script.ssl BaseSslStreamServer_vtbl].
revert fuel s. induction bad as [|raw bad IH]; intros fuel s Hbad Hfuel;
  (destruct fuel as [|fuel]; [simpl in Hfuel; lia|]).
- split; [|split].
  + intros good Hgood Hin.
    apply ssl_getRequest_handshaken with (u1 := Script.set_incoming rest (env s)).
    * unfold Script.Socket_accept. now rewrite Hin.
    * unfold Script.SslSocket_handshake. cbn. now rewrite Hgood.
  + intros Hin. apply ssl_getRequest_accept_failed.
    unfold Script.Socket_accept. now rewrite Hin.
  + intros Hin.
    rewrite (ssl_getRequest_accept_failed _ _ fuel s (env s))
      by (unfold Script.Socket_accept; now rewrite Hin).
    destruct s as [st sp d w]. destruct w. cbn in *. now subst.
- simpl in Hfuel. apply Forall_cons in Hbad as [Hraw Hbad].
  assert (Hstep : forall tail,
             Script.incoming (env s) = Some raw :: tail ->
             BaseSslStreamServer_getRequest Script.Socket_accept
               Script.SslSocket_handshake (S fuel) s
             = BaseSslStreamServer_getRequest Script.Socket_accept
                 Script.SslSocket_handshake fuel
                 (set_env (Script.set_incoming tail (env s)) s)).
  { intros tail Hin. eapply ssl_getRequest_retry.
    - unfold Script.Socket_accept. rewrite Hin. reflexivity.
    - unfold Script.SslSocket_handshake. cbn. now rewrite Hraw. }
  split; [|split].
  + intros good Hgood Hin.
    rewrite (Hstep (map Some bad ++ Some good :: rest) Hin).
    destruct (IH fuel (set_env (Script.set_incoming (map Some bad ++ Some good :: rest)
                                  (env s)) s)) as (H1 & _ & _);
      [exact Hbad|lia|].
    now rewrite (H1 good Hgood eq_refl).
  + intros Hin. rewrite (Hstep (map Some bad ++ None :: rest) Hin).
    destruct (IH fuel (set_env (Script.set_incoming (map Some bad ++ None :: rest)
                                  (env s)) s)) as (_ & H2 & _);
      [exact Hbad|lia|].
    now rewrite (H2 eq_refl).
  + intros Hin. rewrite (Hstep (map Some bad) Hin).
    destruct (IH fuel (set_env (Script.set_incoming (map Some bad) (env s)) s))
      as (_ & _ & H3); [exact Hbad|lia|].
    now rewrite (H3 eq_refl).
Qed.

(** A list of raw connections either fails every handshake or splits at
    the first one that passes. *)
Lemma first_handshaken (tls : Socket -> bool) (conns : list Socket) :
  Forall (fun raw => tls raw = false) conns
  \/ exists bad good more,
       conns = bad ++ good :: more
       /\ Forall (fun raw => tls raw = false) bad
       /\ tls good = true.
Proof.
induction conns as [|c conns IH]; [left; constructor|].
destruct (tls c) eqn:Hc.
- right. exists [], c, conns. repeat split; [constructor|exact Hc].
- destruct IH as [IH|(bad & good & more & -> & Hbad & Hgood)].
  + left. now constructor.
  + right. exists (c :: bad), good, more. repeat split; [now constructor|exact Hgood].
Qed.

Lemma filter_all_failed (tls : Socket -> bool) (conns : list Socket) :
  Forall (fun raw => tls raw = false) conns ->
  filter (fun raw => tls raw = true) conns = [].
Proof.
induction 1 as [|c conns Hc _ IH]; [reflexivity|].
rewrite filter_cons_False by congruence. exact IH.
Qed.

Lemma ssl_loop_dispatches (f1 : nat) :
  forall (n : nat) (conns : list Socket),
    (length conns <= n)%nat ->
    forall (tail : list (option Socket)) (fuel : nat) (m : Machine Script.World),
      tail = [] \/ (exists rest, tail = None :: rest) ->
      Script.incoming (env (server m)) = map Some conns ++ tail ->
      (length conns < f1)%nat ->
      (length conns < fuel)%nat ->
      exists m',
        serveForever_loop (Script.ssl f1) fuel m = (Returns tt, m')
        /\ anonymous (operations (d_ptr (server m')))
           = anonymous (operations (d_ptr (server m)))
             ++ map (fun raw =>
                       HandleRequestTask
                         (sslSocket (mkSslSocket raw (configuration (d_ptr (server m))))))
                  (filter (fun raw => Script.tls_ok (env (server m)) raw = true) conns)
        /\ Script.closed (env (server m')) = Script.closed (env (server m))
        /\ Script.incoming (env (server m')) = tl tail
        /\ Script.listener_closed (env (server m'))
           = Script.listener_closed (env (server m))
        /\ started (server m') = started (server m)
        /\ stopped (server m') = stopped (server m)
        /\ named (operations (d_ptr (server m')))
           = named (operations (d_ptr (server m))).
Proof.
induction n as [|n IH]; intros conns Hn tail fuel m Htail Hin Hf1 Hfuel.
- destruct conns; [|simpl in Hn; lia].
  destruct fuel as [|fuel]; [simpl in Hfuel; lia|].
  destruct (ssl_getRequest_script f1 (server m) [] (tl tail))
    as (_ & Hnull & Hend); [constructor|exact Hf1|].
  destruct Htail as [->|[rest ->]].
  + eexists. split.
    * apply serveForever_loop_break, serveForever_body_accept_failed.
      exact (Hend Hin).
    * cbn. rewrite app_nil_r. now repeat split.
  + eexists. split.
    * apply serveForever_loop_break, serveForever_body_accept_failed.
      exact (Hnull Hin).
    * cbn. rewrite app_nil_r. now repeat split.
- destruct fuel as [|fuel]; [simpl in Hfuel; lia|].
  destruct (first_handshaken (Script.tls_ok (env (server m))) conns)
    as [Hall|(bad & good & more & -> & Hbad & Hgood)].
  + rewrite (filter_all_failed _ _ Hall).
    destruct (ssl_getRequest_script f1 (server m) conns (tl tail))
      as (_ & Hnull & Hend); [exact Hall|exact Hf1|].
    destruct Htail as [->|[rest ->]].
    * eexists. split.
      -- apply serveForever_loop_break, serveForever_body_accept_failed.
         rewrite app_nil_r in Hin. exact (Hend Hin).
      -- cbn. rewrite app_nil_r. now repeat split.
    * eexists. split.
      -- apply serveForever_loop_break, serveForever_body_accept_failed.
         exact (Hnull Hin).
      -- cbn. rewrite app_nil_r. now repeat split.
  + rewrite length_app in Hn, Hf1, Hfuel. cbn [length] in Hn, Hf1, Hfuel.
    rewrite map_app in Hin. cbn [map] in Hin. rewrite <- app_assoc in Hin.
    cbn [app] in Hin.
    destruct (ssl_getRequest_script f1 (server m) bad (map Some more ++ tail))
      as (Hok & _ & _); [exact Hbad|lia|].
    pose proof (serveForever_body_admitted (Script.ssl f1) _ m _ _
                  (Hok good Hgood Hin) eq_refl) as Hb.
    erewrite serviceActions_go_on in Hb by reflexivity.
    rewrite (serveForever_loop_continue _ _ _ _ Hb).
    match type of Hb with _ = (_, ?m1) =>
      destruct (IH more ltac:(lia) tail fuel m1 Htail)
        as (m' & El & Ha & Hc & Hi & Hl & Hs & Ht & Hnm);
        [reflexivity|lia|lia|]
    end.
    exists m'. split; [exact El|].
    rewrite Ha, Hc, Hi, Hl, Hs, Ht, Hnm.
    rewrite filter_app, (filter_all_failed _ _ Hbad).
    rewrite filter_cons_True by exact Hgood.
    cbn. rewrite <- app_assoc. now repeat split.
Qed.

(** The blocking [serveForever] of the SSL server on any script, up to
    the first null accept or the end of the script: it returns [true]
    having spawned one task for each raw connection whose handshake
    succeeded, in the order of acceptance and wrapped with the server's
    configuration, and none for the others; the loop has closed no
    connection, and on return the listening socket has been closed once,
    [started] is clear and [stopped] is set. *)
Theorem ssl_serveForever_dispatches_handshaken
    (conns : list Socket) (tail : list (option Socket)) (tls : Socket -> bool)
    (f1 fuel : nat) :
  tail = [] \/ (exists rest, tail = None :: rest) ->
  (length conns < f1)%nat ->
  (length conns < fuel)%nat ->
  let r := serveForever Script.Socket_bind Script.Socket_listen Script.Socket_close
             (Script.ssl f1) fuel
             (Script.fresh (Script.world0 (map Some conns ++ tail) tls)) in
  fst r = Returns true
  /\ Script.spawned_after r
     = map (fun raw => HandleRequestTask (sslSocket (mkSslSocket raw "SslServer")))
         (filter (fun raw => tls raw = true) conns)
  /\ Script.closed_after r = []
  /\ Script.waiting_after r = tl tail
  /\ Script.listener_closed (env (server (snd r))) = 1%nat
  /\ Event_isSet (started (server (snd r))) = false
  /\ Event_isSet (stopped (server (snd r))) = true.
Proof.
intros Htail Hf1 Hfuel r.
assert (E : exists m',
           r = (Returns true, m')
           /\ anonymous (operations (d_ptr (server m')))
              = map (fun raw => HandleRequestTask (sslSocket (mkSslSocket raw "SslServer")))
                  (filter (fun raw => tls raw = true) conns)
           /\ Script.closed (env (server m')) = []
           /\ Script.incoming (env (server m')) = tl tail
           /\ Script.listener_closed (env (server m')) = 1%nat
           /\ Event_isSet (started (server m')) = false
           /\ Event_isSet (stopped (server m')) = true).
{ subst r. unfold serveForever.
  rewrite (bind_returns _ _ _ _ _ (scripted_serverBind _)).
  cbn [negb Script.bind_ok Script.listen_ok Script.world0 Script.fresh env server
         set_env BaseStreamServer_new].
  rewrite (bind_returns _ _ _ _ _ (scripted_serverActivate _)).
  cbn [negb Script.bind_ok Script.listen_ok Script.world0 Script.fresh env server
         set_env BaseStreamServer_new].
  unfold bind at 1. rewrite d_serveForever_entered.
  match goal with
  | |- context [bind (serveForever_loop _ _) _ ?m0] =>
      destruct (ssl_loop_dispatches f1 (length conns) conns (le_n _) tail fuel m0 Htail)
        as (m' & El & Ha & Hc & Hi & Hn & Hs & Ht & Hnm);
        [reflexivity|exact Hf1|exact Hfuel|]
  end.
  rewrite (bind_returns _ _ _ _ _ El), serveForever_epilogue.
  eexists. split; [reflexivity|].
  cbn. rewrite Ha, Hc, Hi, Hn. now repeat split. }
destruct E as (m' & -> & Ha & Hc & Hi & Hn & Hs & Ht).
unfold Script.spawned_after, Script.closed_after, Script.waiting_after.
cbn [fst snd]. now repeat split.
Qed.

(** ** The further properties on concrete runs *)

Lemma handleError_failure_witness :
  handleRequest
    (Faults.server (Returns None) (Returns true) (Throws (OtherException "boom"))
       (Throws (OtherException "logger")) (Returns tt) (Returns tt) (Returns true))
    Script.conn1 Script.quiet
  = (Throws (OtherException "logger"),
     mkMachine (server Script.quiet)
       [Call_processRequest Script.conn1; Call_handleError Script.conn1]).
Proof.
apply (handleError_failure_skips_cleanup
         (Faults.server (Returns None) (Returns true) (Throws (OtherException "boom"))
            (Throws (OtherException "logger")) (Returns tt) (Returns tt) (Returns true))
         Script.conn1 Script.quiet "boom" (server Script.quiet)
         (OtherException "logger") (server Script.quiet) eq_refl eq_refl).
Defined.

Lemma shutdownRequest_failure_witness :
  handleRequest
    (Faults.server (Returns None) (Returns true) (Throws CoroutineExitException)
       (Returns tt) (Throws (OtherException "half-close")) (Returns tt) (Returns true))
    Script.conn1 Script.quiet
  = (Throws (OtherException "half-close"),
     mkMachine (server Script.quiet)
       [Call_processRequest Script.conn1; Call_shutdownRequest Script.conn1]).
Proof.
apply (proj1 (shutdownRequest_failure_skips_close
                (Faults.server (Returns None) (Returns true)
                   (Throws CoroutineExitException) (Returns tt)
                   (Throws (OtherException "half-close")) (Returns tt) (Returns true))
                Script.conn1 Script.quiet (OtherException "half-close"))
         (server Script.quiet) (server Script.quiet) eq_refl eq_refl).
Defined.

Lemma run_setup_failure_witness :
  BaseRequestHandler_run
    (Faults.handler (Throws (OtherException "setup")) (Returns tt) (Returns tt))
    Script.conn1 Script.quiet
  = (Throws (OtherException "setup"),
     mkMachine (server Script.quiet) [Call_setup Script.conn1]).
Proof.
apply (run_setup_failure_skips_finish
         (Faults.handler (Throws (OtherException "setup")) (Returns tt) (Returns tt))
         Script.conn1 Script.quiet (OtherException "setup") (server Script.quiet)
         eq_refl).
Defined.

Lemma run_finish_failure_witness :
  BaseRequestHandler_run
    (Faults.handler (Returns tt) (Returns tt) (Throws (OtherException "close")))
    Script.conn1 Script.quiet
  = (Throws (OtherException "close"),
     mkMachine (server Script.quiet)
       [Call_setup Script.conn1; Call_handle Script.conn1;
        Call_finish Script.conn1; Call_finish Script.conn1]).
Proof.
apply (run_finish_failure_calls_finish_twice
         (Faults.handler (Returns tt) (Returns tt) (Throws (OtherException "close")))
         Script.conn1 Script.quiet (OtherException "close")
         (server Script.quiet) (server Script.quiet) (server Script.quiet)
         (Throws (OtherException "close")) (server Script.quiet)
         eq_refl eq_refl eq_refl eq_refl).
Defined.

Lemma loop_exception_witness :
  fst (d_serveForever Script.Socket_close
         (Faults.server (Throws CoroutineExitException) (Returns true) (Returns tt)
            (Returns tt) (Returns tt) (Returns tt) (Returns true))
         3 Script.quiet)
  = Throws CoroutineExitException
  /\ calls (snd (d_serveForever Script.Socket_close
                   (Faults.server (Throws CoroutineExitException) (Returns true)
                      (Returns tt) (Returns tt) (Returns tt) (Returns tt)
                      (Returns true))
                   3 Script.quiet))
     = [Call_started_set; Call_stopped_clear; Call_getRequest]
  /\ Event_isSet
       (started (server (snd (d_serveForever Script.Socket_close
                                (Faults.server (Throws CoroutineExitException)
                                   (Returns true) (Returns tt) (Returns tt)
                                   (Returns tt) (Returns tt) (Returns true))
                                3 Script.quiet))))
     = true.
Proof.
destruct (loop_exception_skips_epilogue Script.Socket_close
            (Faults.server (Throws CoroutineExitException) (Returns true) (Returns tt)
               (Returns tt) (Returns tt) (Returns tt) (Returns true))
            3 Script.quiet _ CoroutineExitException eq_refl) as [E _].
rewrite E. repeat split.
Defined.

Lemma start_registers_witness :
  fst (start Script.Socket_bind Script.Socket_listen Script.Socket_close Script.quiet)
  = Returns true
  /\ Event_isSet
       (started (server (snd (start Script.Socket_bind Script.Socket_listen
                                Script.Socket_close Script.quiet))))
     = false
  /\ Script.listener_closed
       (env (server (snd (start Script.Socket_bind Script.Socket_listen
                            Script.Socket_close Script.quiet))))
     = 0%nat.
Proof.
destruct (start_registers_serve_task Script.Socket_bind Script.Socket_listen
            Script.Socket_close Script.quiet eq_refl eq_refl eq_refl eq_refl)
  as (m' & E & _ & _ & _ & Henv & Hs & _).
rewrite E. cbn [fst snd]. rewrite Hs, Henv. repeat split.
Defined.

Lemma start_twice_witness :
  start Script.Socket_bind Script.Socket_listen Script.Socket_close
    (snd (start Script.Socket_bind Script.Socket_listen Script.Socket_close
            Script.one_waiting))
  = (Returns true,
     snd (start Script.Socket_bind Script.Socket_listen Script.Socket_close
            Script.one_waiting)).
Proof.
apply (start_twice Script.Socket_bind Script.Socket_listen Script.Socket_close
         Script.one_waiting).
reflexivity.
Defined.

Lemma setSslConfiguration_witness :
  fst (getRequest (Script.ssl 3)
         (setSslConfiguration "production" (server Script.three_waiting)))
  = Returns (Some (sslSocket (mkSslSocket 3%nat "production"))).
Proof.
destruct (setSslConfiguration_takes_effect Script.Socket_accept
            Script.SslSocket_handshake 3 "production" (server Script.three_waiting)
            _ _ eq_refl) as ([raw E] & _).
reflexivity.
Defined.

Lemma randomBytes_contents_witness :
  fst (Random.randomBytes unit id Script.RAND_bytes_failing (fun _ => Byte.xff) 4 tt)
  = [Byte.xff; Byte.xff; Byte.xff; Byte.xff].
Proof.
destruct (randomBytes_contents unit id Script.RAND_bytes_failing (fun _ => Byte.xff)
            4 tt ltac:(lia)) as (_ & H & _).
rewrite (H eq_refl). reflexivity.
Defined.

Lemma dispatches_in_order_witness :
  Script.spawned_after
    (serveForever Script.Socket_bind Script.Socket_listen Script.Socket_close
       (Script.subclass (fun _ => Returns tt)
          (fun r => bool_decide (r = rawSocket 2%nat)) true)
       4 (Script.fresh (Script.world0 [Some 1%nat; Some 2%nat; Some 3%nat; None; Some 4%nat]
                          (fun _ => true))))
  = [HandleRequestTask (rawSocket 2%nat)]
  /\ Script.closed_after
       (serveForever Script.Socket_bind Script.Socket_listen Script.Socket_close
          (Script.subclass (fun _ => Returns tt)
             (fun r => bool_decide (r = rawSocket 2%nat)) true)
          4 (Script.fresh (Script.world0
                             [Some 1%nat; Some 2%nat; Some 3%nat; None; Some 4%nat]
                             (fun _ => true))))
     = [rawSocket 1%nat; rawSocket 3%nat].
Proof.
destruct (serveForever_dispatches_in_order (fun _ => Returns tt)
            (fun r => bool_decide (r = rawSocket 2%nat))
            [1%nat; 2%nat; 3%nat] [None; Some 4%nat] (fun _ => true) 4
            (or_intror (ex_intro _ [Some 4%nat] eq_refl)) ltac:(simpl; lia))
  as (_ & Hs & Hc & _).
split; [exact Hs|exact Hc].
Defined.

Lemma ssl_dispatches_witness :
  Script.spawned_after
    (serveForever Script.Socket_bind Script.Socket_listen Script.Socket_close
       (Script.ssl 4) 4
       (Script.fresh (Script.world0 [Some 1%nat; Some 2%nat; Some 3%nat] (Nat.eqb 3))))
  = [HandleRequestTask (sslSocket (mkSslSocket 3%nat "SslServer"))].
Proof.
destruct (ssl_serveForever_dispatches_handshaken [1%nat; 2%nat; 3%nat] []
            (Nat.eqb 3) 4 4 (or_introl eq_refl) ltac:(simpl; lia) ltac:(simpl; lia))
  as (_ & Hs & _).
exact Hs.
Defined.

Lemma start_uses_configuration_witness :
  env (server (snd (start Recorder.Socket_bind Recorder.Socket_listen
                      Recorder.Socket_close
                      (mkMachine
                         (setRequestQueueSize 5
                            (setAllowReuseAddress false
                               (BaseStreamServer_new "0.0.0.0" 8443 "SslServer"
                                  Recorder.untouched)))
                         []))))
  = Recorder.mkWorld [("0.0.0.0", 8443, DefaultForPlatform)] [5] 0.
Proof.
apply (start_uses_configuration "0.0.0.0" 8443 "SslServer" false 5);
  split; lia.
Defined.
